(** * sync_master_manifest_to_db: manifest parsing and field normalisation

    A shallow embedding of [sync_master_manifest_to_db.py]: the order
    metadata loader ([load_orders]), the spreadsheet row extractor and field
    normaliser ([parse_manifest_xlsx]) and the upsert loop of [main].

    Python values are modelled as the interpreter has them:
    - [str] as [string], read as a sequence of Latin-1 code points (the
      whitespace set of [str.strip], the case mapping of [str.lower] and the
      digit class of the pattern [\D] are Python's on that range);
    - [int] as [Z], [float] as the kernel's binary64 [float], with the
      conversions between them written out;
    - [dict] as stdpp's [gmap];
    - exceptions as an explicit result type, with the [except] clauses of the
      source deciding which ones are caught. *)

From Stdlib Require Import ZArith NArith List String Ascii Bool Lia.
From Stdlib Require Import DecimalString Floats.
From stdpp Require Import base option list strings gmap.

Local Open Scope string_scope.

(** ** Python string builtins *)

Module PyStr.

(** [str.isspace] on one character. *)
Definition is_space (c : ascii) : bool :=
  let n := N_of_ascii c in
  (((9 <=? n) && (n <=? 13)) || ((28 <=? n) && (n <=? 32))
   || (n =? 133) || (n =? 160))%N.

(** The character class [\d] of a [str] pattern. *)
Definition is_digit (c : ascii) : bool :=
  let n := N_of_ascii c in ((48 <=? n) && (n <=? 57))%N.

(** [str.lower] on one character. *)
Definition lower_char (c : ascii) : ascii :=
  let n := N_of_ascii c in
  if (((65 <=? n) && (n <=? 90))
      || ((192 <=? n) && (n <=? 222) && negb (n =? 215)))%N
  then ascii_of_N (n + 32) else c.

Fixpoint lower (s : string) : string :=
  match s with
  | EmptyString => EmptyString
  | String c s' => String (lower_char c) (lower s')
  end.

Fixpoint lstrip (s : string) : string :=
  match s with
  | EmptyString => EmptyString
  | String c s' => if is_space c then lstrip s' else s
  end.

Fixpoint rstrip (s : string) : string :=
  match s with
  | EmptyString => EmptyString
  | String c s' =>
      match rstrip s' with
      | EmptyString => if is_space c then EmptyString else String c EmptyString
      | r => String c r
      end
  end.

(** [s.strip()] *)
Definition strip (s : string) : string := rstrip (lstrip s).

(** [s.endswith(suf)] *)
Fixpoint endswith (suf s : string) : bool :=
  String.eqb suf s
  || match s with
     | EmptyString => false
     | String _ s' => endswith suf s'
     end.

(** [s[:-2]] *)
Definition drop_last2 (s : string) : string :=
  substring 0 (String.length s - 2) s.

(** [re.sub(r'\D', '', s)] *)
Fixpoint digits (s : string) : string :=
  match s with
  | EmptyString => EmptyString
  | String c s' => if is_digit c then String c (digits s') else digits s'
  end.

(** [sub in s] *)
Fixpoint contains (sub s : string) : bool :=
  String.prefix sub s
  || match s with
     | EmptyString => false
     | String _ s' => contains sub s'
     end.

(** [s.split(sep)] for a non-empty [sep]: the scan emits the current part at
    each leftmost occurrence of [sep] and skips the rest of the occurrence. *)
Fixpoint split_go (sep : string) (skip : nat) (cur s : string) : list string :=
  match s with
  | EmptyString => [cur]
  | String c s' =>
      match skip with
      | S k => split_go sep k cur s'
      | O =>
          if String.prefix sep s
          then cur :: split_go sep (String.length sep - 1) EmptyString s'
          else split_go sep 0 (cur +:+ String c EmptyString) s'
      end
  end.

Definition split (sep s : string) : list string := split_go sep 0 EmptyString s.

(** [sep.join(parts)] *)
Fixpoint join (sep : string) (parts : list string) : string :=
  match parts with
  | [] => EmptyString
  | x :: rest =>
      match rest with
      | [] => x
      | _ :: _ => x +:+ sep +:+ join sep rest
      end
  end.

(** [s.replace(old, new)] for a non-empty [old]: every non-overlapping
    occurrence, leftmost first, in a single pass. *)
Fixpoint replace_go (old new : string) (skip : nat) (s : string) : string :=
  match s with
  | EmptyString => EmptyString
  | String c s' =>
      match skip with
      | S k => replace_go old new k s'
      | O =>
          if String.prefix old s
          then new +:+ replace_go old new (String.length old - 1) s'
          else String c (replace_go old new 0 s')
      end
  end.

Definition replace (old new s : string) : string := replace_go old new 0 s.

(** [str(n)] for an [int]. *)
Definition str_of_int (z : Z) : string := NilZero.string_of_int (Z.to_int z).

End PyStr.

Import PyStr.

(** ** Exceptions *)

Inductive exn : Set := ValueError | TypeError | OverflowError | ZeroDivisionError.

(** The outcome of an expression or statement that may raise. *)
Inductive res (A : Type) : Type :=
  | Ok (a : A)
  | Raise (e : exn).
Arguments Ok {A} a.
Arguments Raise {A} e.

Definition bind {A B : Type} (r : res A) (k : A -> res B) : res B :=
  match r with
  | Ok a => k a
  | Raise e => Raise e
  end.

Notation "x <- r ;; k" := (bind r (fun x => k))
  (at level 100, r at next level, right associativity).

(** [try: r except (ValueError, TypeError): h] *)
Definition try_value_type {A : Type} (r : res A) (h : res A) : res A :=
  match r with
  | Raise ValueError | Raise TypeError => h
  | _ => r
  end.

(** ** Python numbers *)

Module PyNum.

(** [float(n)] for an [int]: the nearest binary64 value, ties to even;
    [OverflowError] when it is out of range. *)
Definition float_of_int (z : Z) : res float :=
  match binary_normalize prec emax z 0 false with
  | S754_infinity _ => Raise OverflowError
  | sf => Ok (SF2Prim sf)
  end.

(** [int(x)] for a [float]: truncation towards zero; [ValueError] on a NaN,
    [OverflowError] on an infinity. *)
Definition int_of_float (f : float) : res Z :=
  match Prim2SF f with
  | S754_nan => Raise ValueError
  | S754_infinity _ => Raise OverflowError
  | S754_zero _ => Ok 0%Z
  | S754_finite s m e =>
      let v := Z.shiftl (Zpos m) e in Ok (if s then (- v)%Z else v)
  end.

(** A JSON number as [json.load] returns it. *)
Inductive num : Set :=
  | PInt (z : Z)
  | PFloat (f : float).

(** [n > 0] *)
Definition gt0 (n : num) : bool :=
  match n with
  | PInt z => (0 <? z)%Z
  | PFloat f => (0 <? f)%float
  end.

(** [n == 0] *)
Definition eq0 (n : num) : bool :=
  match n with
  | PInt z => (z =? 0)%Z
  | PFloat f => (f =? 0)%float
  end.

Definition sf_of_int (z : Z) : spec_float :=
  match z with
  | Z0 => S754_zero false
  | Zpos p => S754_finite false p 0
  | Zneg p => S754_finite true p 0
  end.

(** [a / b] on two [int]s: the correctly rounded quotient. *)
Definition int_truediv (a b : Z) : res float :=
  if (b =? 0)%Z then Raise ZeroDivisionError
  else match SFdiv prec emax (sf_of_int a) (sf_of_int b) with
       | S754_infinity _ => Raise OverflowError
       | sf => Ok (SF2Prim sf)
       end.

Definition float_truediv (x y : float) : res float :=
  if (y =? 0)%float then Raise ZeroDivisionError else Ok (x / y)%float.

(** [a / b] *)
Definition truediv (a b : num) : res float :=
  match a, b with
  | PInt x, PInt y => int_truediv x y
  | PInt x, PFloat y => fx <- float_of_int x ;; float_truediv fx y
  | PFloat x, PInt y => fy <- float_of_int y ;; float_truediv x fy
  | PFloat x, PFloat y => float_truediv x y
  end.

(** [a + b] *)
Definition add (a b : num) : res num :=
  match a, b with
  | PInt x, PInt y => Ok (PInt (x + y))
  | PInt x, PFloat y => fx <- float_of_int x ;; Ok (PFloat (fx + y))
  | PFloat x, PInt y => fy <- float_of_int y ;; Ok (PFloat (x + fy))
  | PFloat x, PFloat y => Ok (PFloat (x + y))
  end.

(** [sum(ns)], which starts from the [int] 0. *)
Definition sum (ns : list num) : res num :=
  fold_left (fun acc n => a <- acc ;; add a n) ns (Ok (PInt 0)).

(** [x * n] for a [float] [x]. *)
Definition fmul (x : float) (n : num) : res float :=
  match n with
  | PInt z => fz <- float_of_int z ;; Ok (x * fz)%float
  | PFloat y => Ok (x * y)%float
  end.

End PyNum.

Import PyNum.

(** ** Floats as text

    [float(s)] on a [str] and [str(x)] on a [float], for the examples that
    run the parser on concrete cells. *)

Module PyFloatText.

(** The value [m * 10^k] rounded to binary64 (to nearest, ties to even);
    an infinity when it is out of range. *)
Definition sf_of_decimal (m k : Z) : spec_float :=
  if (0 <=? k)%Z then binary_normalize prec emax (m * 10 ^ k) 0 false
  else SFdiv prec emax (sf_of_int m) (sf_of_int (10 ^ (- k))).

(** The digits of a decimal numeral, most significant first. *)
Fixpoint digits_value (acc : Z) (s : string) : Z :=
  match s with
  | EmptyString => acc
  | String c s' => digits_value (10 * acc + (Z.of_N (N_of_ascii c) - 48)) s'
  end.

(** The longest prefix of digits, and what follows it. *)
Fixpoint span_digits (s : string) : string * string :=
  match s with
  | String c s' =>
      if is_digit c then let '(d, r) := span_digits s' in (String c d, r)
      else (EmptyString, s)
  | EmptyString => (EmptyString, EmptyString)
  end.

(** Underscores are legal between two digits only, and dropped. *)
Fixpoint drop_underscores (prev_digit : bool) (s : string) : option string :=
  match s with
  | EmptyString => Some EmptyString
  | String c s' =>
      if Ascii.eqb c "_" then
        match s' with
        | String d _ =>
            if prev_digit && is_digit d then drop_underscores false s' else None
        | EmptyString => None
        end
      else option_map (String c) (drop_underscores (is_digit c) s')
  end.

Definition split_sign (s : string) : bool * string :=
  match s with
  | String "-" r => (true, r)
  | String "+" r => (false, r)
  | _ => (false, s)
  end.

(** The exponent part: empty, or [e] or [E], an optional sign and digits. *)
Definition parse_exponent (s : string) : option Z :=
  match s with
  | EmptyString => Some 0%Z
  | String c r =>
      if Ascii.eqb c "e" || Ascii.eqb c "E" then
        let '(neg, r) := split_sign r in
        let '(d, rest) := span_digits r in
        match d, rest with
        | String _ _, EmptyString =>
            Some (if neg then - digits_value 0 d else digits_value 0 d)%Z
        | _, _ => None
        end
      else None
  end.

Definition parse_decimal (neg : bool) (s : string) : option float :=
  let '(ip, r) := span_digits s in
  let '(fp, r) :=
    match r with
    | String "." r' => span_digits r'
    | _ => (EmptyString, r)
    end in
  if (String.length ip + String.length fp =? 0)%nat then None
  else
    match parse_exponent r with
    | None => None
    | Some e =>
        let m := digits_value 0 (ip +:+ fp) in
        let k := (e - Z.of_nat (String.length fp))%Z in
        Some (match sf_of_decimal m k with
              | S754_zero _ => if neg then neg_zero else zero
              | S754_finite _ p q => SF2Prim (S754_finite neg p q)
              | S754_infinity _ => if neg then neg_infinity else infinity
              | S754_nan => nan
              end)
    end.

(** The white space that [float] skips around a numeral: that of
    [str.isspace] without the separators U+001C to U+001F. *)
Definition is_float_space (c : ascii) : bool :=
  let n := N_of_ascii c in
  (((9 <=? n) && (n <=? 13)) || (n =? 32) || (n =? 133) || (n =? 160))%N.

Fixpoint skip_leading_space (s : string) : string :=
  match s with
  | EmptyString => EmptyString
  | String c s' => if is_float_space c then skip_leading_space s' else s
  end.

Fixpoint skip_trailing_space (s : string) : string :=
  match s with
  | EmptyString => EmptyString
  | String c s' =>
      match skip_trailing_space s' with
      | EmptyString =>
          if is_float_space c then EmptyString else String c EmptyString
      | r => String c r
      end
  end.

(** [float(s)] for a [str]. *)
Definition float_of_text (s : string) : option float :=
  match drop_underscores false (skip_trailing_space (skip_leading_space s)) with
  | None => None
  | Some t =>
      let '(neg, body) := split_sign t in
      let l := lower body in
      if String.eqb l "inf" || String.eqb l "infinity"
      then Some (if neg then neg_infinity else infinity)
      else if String.eqb l "nan" then Some nan
      else parse_decimal neg body
  end.

(** The number of decimal digits of a positive integer. *)
Definition ndigits (z : Z) : Z := Z.of_nat (String.length (str_of_int z)).

(** [floor(log10(m * 2^e))] for a positive [m]. *)
Definition floor_log10 (m e : Z) : Z :=
  (ndigits (Z.shiftl (m * 10 ^ 400) e) - 1 - 400)%Z.

(** The decimal [d * 10^k] reads back as the binary64 value [m * 2^e]. *)
Definition reads_back (m : positive) (e d k : Z) : bool :=
  match sf_of_decimal d k with
  | S754_finite _ m' e' => Pos.eqb m m' && (e =? e')%Z
  | _ => false
  end.

(** The candidate with [n] significant digits: of the two decimals around
    the value, the nearer one that reads back. *)
Definition candidate (m : positive) (e p : Z) (n : Z) : option (Z * Z) :=
  let k := (p - (n - 1))%Z in
  let num := (Z.shiftl (Zpos m) (Z.max e 0) * 10 ^ Z.max (- k) 0)%Z in
  let den := (Z.shiftl 1 (Z.max (- e) 0) * 10 ^ Z.max k 0)%Z in
  let lo := (num / den)%Z in
  let r2 := (2 * (num - lo * den))%Z in
  let ok_lo := reads_back m e lo k in
  let ok_hi := reads_back m e (lo + 1) k in
  let lo_first := ((r2 <? den) || ((r2 =? den) && Z.even lo))%Z in
  if lo_first then
    if ok_lo then Some (lo, k) else if ok_hi then Some ((lo + 1)%Z, k) else None
  else
    if ok_hi then Some ((lo + 1)%Z, k) else if ok_lo then Some (lo, k) else None.

Fixpoint shortest (m : positive) (e p : Z) (n : Z) (fuel : nat) : Z * Z :=
  match fuel with
  | O => (Zpos m, e)
  | S fuel' =>
      match candidate m e p n with
      | Some dk => dk
      | None => shortest m e p (n + 1) fuel'
      end
  end.

Fixpoint strip_zeros (fuel : nat) (d k : Z) : Z * Z :=
  match fuel with
  | O => (d, k)
  | S fuel' => if (d mod 10 =? 0)%Z then strip_zeros fuel' (d / 10)%Z (k + 1)%Z else (d, k)
  end.

Fixpoint zeros (n : nat) : string :=
  match n with O => EmptyString | S n' => String "0" (zeros n') end.

(** The text of the digits [ds] with the decimal point after [decpt] of
    them, as [repr] lays it out. *)
Definition layout (ds : string) (decpt : Z) : string :=
  let n := Z.of_nat (String.length ds) in
  if ((decpt <=? -4) || (16 <? decpt))%Z then
    let e := (decpt - 1)%Z in
    let mant := match ds with
                | String c EmptyString => String c EmptyString
                | String c r => String c (String "." r)
                | EmptyString => EmptyString
                end in
    let es := str_of_int (Z.abs e) in
    mant +:+ "e" +:+ (if (e <? 0)%Z then "-" else "+")
         +:+ (if (String.length es <? 2)%nat then "0" else "") +:+ es
  else if (decpt <=? 0)%Z then "0." +:+ zeros (Z.to_nat (- decpt)) +:+ ds
  else if (n <=? decpt)%Z then ds +:+ zeros (Z.to_nat (decpt - n)) +:+ ".0"
  else substring 0 (Z.to_nat decpt) ds +:+ "."
       +:+ substring (Z.to_nat decpt) (Z.to_nat (n - decpt)) ds.

(** [str(x)] (and [repr(x)]) for a [float]: the shortest decimal that reads
    back as [x]. *)
Definition text_of_float (f : float) : string :=
  match Prim2SF f with
  | S754_nan => "nan"
  | S754_infinity s => if s then "-inf" else "inf"
  | S754_zero s => if s then "-0.0" else "0.0"
  | S754_finite s m e =>
      let p := floor_log10 (Zpos m) e in
      let '(d, k) := shortest m e p 1 17 in
      let '(d, k) := strip_zeros 17 d k in
      let ds := str_of_int d in
      (if s then "-" else "") +:+ layout ds (Z.of_nat (String.length ds) + k)
  end.

End PyFloatText.

(** ** Spreadsheet cells *)

(** A cell value as [ws.iter_rows(values_only=True)] yields it. [CDate]
    stands for a date, a time or a duration other than zero and carries its
    [str()] text; [CZeroDuration] is [datetime.timedelta(0)], the one value
    of these types that tests false. *)
Inductive Cell : Type :=
  | CNone
  | CBool (b : bool)
  | CInt (z : Z)
  | CFloat (f : float)
  | CStr (s : string)
  | CDate (s : string)
  | CZeroDuration.

Definition Row : Type := list Cell.
Definition Sheet : Type := list Row.
Definition Workbook : Type := list Sheet.

(** The truth value of a cell, as [if cell] tests it. *)
Definition truthy (c : Cell) : bool :=
  match c with
  | CNone => false
  | CBool b => b
  | CInt z => negb (z =? 0)%Z
  | CFloat f => negb (f =? 0)%float
  | CStr s => negb (String.eqb s "")
  | CDate _ => true
  | CZeroDuration => false
  end.

(** [not row] on a tuple or list. *)
Definition is_nil {A : Type} (l : list A) : bool :=
  match l with [] => true | _ => false end.

Definition is_none (c : Cell) : bool :=
  match c with CNone => true | _ => false end.

(** ** Data model *)

(** The value of [orders_map[oid]] that [parse_manifest_xlsx] reads. *)
Record OrderMeta : Type := mkOrderMeta {
  date : string;
  total_cost : num;
  total_msrp : num;
  pallet_brands : gmap string string
}.

(** One row dict appended to [rows]. *)
Record ManifestRecord : Type := mkManifestRecord {
  order_id : string;
  listing_id : string;
  listing_title : string;
  category : string;
  product_name : string;
  upc : string;
  asin : string;
  quantity : Z;
  unit_retail : float;
  total_retail : float;
  order_date : string;
  line_item_brands : string;
  allocated_cogs_per_unit : float
}.

Definition EXPECTED_HEADERS : list string :=
  ["listing id"; "listing title"; "category"; "product name";
   "upc"; "asin"; "quantity"; "orig. retail"; "total orig. retail"; "stock image"].

(** [t in EXPECTED_HEADERS] *)
Definition in_expected_headers (t : string) : bool :=
  existsb (String.eqb t) EXPECTED_HEADERS.

(** The chain of [if]/[elif] tests that maps a header text to a field. *)
Definition classify_header (h : string) : option string :=
  if contains "listing id" h then Some "listing_id"
  else if contains "listing title" h then Some "listing_title"
  else if contains "category" h then Some "category"
  else if contains "product name" h then Some "product_name"
  else if String.eqb h "upc" then Some "upc"
  else if String.eqb h "asin" then Some "asin"
  else if String.eqb h "quantity" then Some "quantity"
  else if String.eqb "orig. retail" h || String.eqb h "orig. retail" then Some "unit_retail"
  else if contains "total orig" h then Some "total_retail"
  else None.

Fixpoint build_col_map_from (j : nat) (header_row : list string)
    (col_map : gmap string nat) : gmap string nat :=
  match header_row with
  | [] => col_map
  | h :: rest =>
      build_col_map_from (S j) rest
        (match classify_header h with
         | Some key => <[key := j]> col_map
         | None => col_map
         end)
  end.

Definition build_col_map (header_row : list string) : gmap string nat :=
  build_col_map_from 0 header_row ∅.

(** The UPC cleaning of a trimmed text: [strip_dot0] drops a trailing [.0],
    then the digits are kept when there are any. *)
Definition strip_dot0 (upc : string) : string :=
  if endswith ".0" upc then drop_last2 upc else upc.

Definition clean_upc_text (upc : string) : string :=
  let upc := strip_dot0 upc in
  let upc_clean := digits upc in
  if (String.length upc_clean =? 12)%nat || (String.length upc_clean =? 13)%nat
  then upc_clean
  else if negb (String.eqb upc_clean "") then upc_clean
  else upc.

(** The same on a raw string: [s.strip()] first. *)
Definition clean_upc (s : string) : string := clean_upc_text (strip s).

(** [filename.replace("order_manifest_", "").replace(".xlsx", "")] *)
Definition order_id_of_filename (filename : string) : string :=
  replace ".xlsx" "" (replace "order_manifest_" "" filename).

(** ** Order metadata loader *)

(** One entry of an order's [items] list, each field as [item.get] reads it
    (the default when the key is absent). *)
Record Item : Type := mkItem {
  price : num;
  msrp : num;
  item_count : num;
  title : string;
  pallet_ids : list string
}.

(** One entry of [data["orders"]]. *)
Record Order : Type := mkOrder {
  ord_id : string;
  ord_date : string;
  ord_items : list Item
}.

(** [parts[1] if len(parts) >= 3 else ""] for [parts = title.split(" - ")] *)
Definition brands_of_title (t : string) : string :=
  let parts := split " - " t in
  if (3 <=? length parts)%nat then nth 1 parts "" else "".

(** The inner loop [for pid in item.get("pallet_ids", [])]. *)
Definition add_item_brands (brands_map : gmap string string) (item : Item)
    : gmap string string :=
  fold_left (fun m pid => <[pid := brands_of_title (title item)]> m)
    (pallet_ids item) brands_map.

(** The loop [for item in items] that fills [pallet_brands]. *)
Definition pallet_brands_of (items : list Item) : gmap string string :=
  fold_left add_item_brands items ∅.

(** The fields of [orders_map[oid]] that the parser reads
    ([total_item_count] and [items] are stored but not read). *)
Definition order_meta_of (o : Order) : res OrderMeta :=
  cost <- sum (map price (ord_items o)) ;;
  retail <- sum (map msrp (ord_items o)) ;;
  _ <- sum (map item_count (ord_items o)) ;;
  Ok {| date := ord_date o;
        total_cost := cost;
        total_msrp := retail;
        pallet_brands := pallet_brands_of (ord_items o) |}.

Fixpoint load_orders_from (orders : list Order)
    (orders_map : gmap string OrderMeta) : res (gmap string OrderMeta) :=
  match orders with
  | [] => Ok orders_map
  | o :: rest =>
      if String.eqb (ord_id o) "" then load_orders_from rest orders_map
      else
        m <- order_meta_of o ;;
        load_orders_from rest (<[ord_id o := m]> orders_map)
  end.

(** [load_orders(orders_json_path)]; [None] when the file does not exist. *)
Definition load_orders (data : option (list Order)) : res (gmap string OrderMeta) :=
  match data with
  | None => Ok ∅
  | Some orders => load_orders_from orders ∅
  end.

(** The meta [main] falls back on for an order absent from [orders_map]. *)
Definition default_meta : OrderMeta :=
  {| date := ""; total_cost := PInt 0; total_msrp := PInt 0; pallet_brands := ∅ |}.

(** ** The upsert loop of [main] *)

(** The sink is outside the program: a row of the batch comes with what the
    sink answers to [cur.execute(upsert_sql, row)], at the first call and at
    the second one if the loop makes it ([true]: no exception). *)
Record Attempt : Type := mkAttempt {
  att_row : ManifestRecord;
  first_ok : bool;
  retry_ok : bool
}.

(** The connection as the loop sees it: the rows upserted in the open
    transaction, and the two counters. *)
Record LoopState : Type := mkLoopState {
  pending : list ManifestRecord;
  inserted : Z;
  errors : Z
}.

(** [conn.rollback()]: the open transaction is dropped as a whole. *)
Definition rollback (st : LoopState) : LoopState :=
  {| pending := []; inserted := inserted st; errors := errors st |}.

(** [cur.execute(upsert_sql, row)] when it does not raise. *)
Definition execute (r : ManifestRecord) (st : LoopState) : LoopState :=
  {| pending := pending st ++ [r]; inserted := inserted st; errors := errors st |}.

(** The body of [for row in all_rows]. *)
Definition upsert_step (st : LoopState) (a : Attempt) : LoopState :=
  if first_ok a then
    let st := execute (att_row a) st in
    {| pending := pending st; inserted := inserted st + 1; errors := errors st |}
  else
    let st := {| pending := pending st; inserted := inserted st;
                 errors := errors st + 1 |} in
    let st := rollback st in
    if retry_ok a then
      let st := execute (att_row a) st in
      {| pending := pending st; inserted := inserted st + 1;
         errors := errors st - 1 |}
    else st.

Definition upsert_loop (batch : list Attempt) : LoopState :=
  fold_left upsert_step batch {| pending := []; inserted := 0; errors := 0 |}.

(** The identity tuple of the [ON CONFLICT] clause. *)
Definition same_key (a b : ManifestRecord) : bool :=
  String.eqb (order_id a) (order_id b) && String.eqb (listing_id a) (listing_id b)
  && String.eqb (product_name a) (product_name b) && String.eqb (upc a) (upc b).

(** The [DO UPDATE SET] list: the columns taken from the new row. *)
Definition do_update (old new : ManifestRecord) : ManifestRecord :=
  {| order_id := order_id old;
     listing_id := listing_id old;
     listing_title := listing_title old;
     category := category new;
     product_name := product_name old;
     upc := upc old;
     asin := asin new;
     quantity := quantity new;
     unit_retail := unit_retail new;
     total_retail := total_retail new;
     order_date := order_date new;
     line_item_brands := line_item_brands new;
     allocated_cogs_per_unit := allocated_cogs_per_unit new |}.

(** [conn.commit()] after the loop: the rows of the open transaction reach
    the table, a row with a stored identity tuple updating the stored one. *)
Definition upsert (table : list ManifestRecord) (r : ManifestRecord)
    : list ManifestRecord :=
  if existsb (same_key r) table
  then map (fun old => if same_key r old then do_update old r else old) table
  else table ++ [r].

Definition commit (table : list ManifestRecord) (st : LoopState)
    : list ManifestRecord :=
  fold_left upsert (pending st) table.

(** The records of the batch whose two attempts both raised. *)
Definition both_failed (a : Attempt) : bool := negb (first_ok a) && negb (retry_ok a).

(** ** Spreadsheet row extractor and field normaliser *)

(** The two builtins that turn text into floats and back: [float(s)] on a
    [str] ([None] stands for [ValueError]) and [str(x)] on a [float]. The
    parser is written over this interface. *)
Class FloatText : Type := {
  float_of_str : string -> option float;
  repr_float : float -> string
}.

#[export] Instance py_float_text : FloatText :=
  {| float_of_str := PyFloatText.float_of_text;
     repr_float := PyFloatText.text_of_float |}.

Section Parser.

Context {FT : FloatText}.

(** [str(cell)] *)
Definition py_str (c : Cell) : string :=
  match c with
  | CNone => "None"
  | CBool true => "True"
  | CBool false => "False"
  | CInt z => str_of_int z
  | CFloat f => repr_float f
  | CStr s => s
  | CDate s => s
  | CZeroDuration => "0:00:00"
  end.

(** [float(cell)] *)
Definition py_float (c : Cell) : res float :=
  match c with
  | CNone => Raise TypeError
  | CBool b => Ok (if b then 1 else 0)%float
  | CInt z => float_of_int z
  | CFloat f => Ok f
  | CStr s => match float_of_str s with
              | Some f => Ok f
              | None => Raise ValueError
              end
  | CDate _ => Raise TypeError
  | CZeroDuration => Raise TypeError
  end.

(** [str(cell).strip().lower() in EXPECTED_HEADERS] *)
Definition is_header_cell (c : Cell) : bool :=
  in_expected_headers (lower (strip (py_str c))).

(** The test of the header scan on one row. *)
Definition is_header_row (row : Row) : bool :=
  negb (is_nil row)
  && existsb (fun c => truthy c && is_header_cell c) row.

Definition header_cells (row : Row) : list string :=
  map (fun c => if truthy c then lower (strip (py_str c)) else "") row.

(** The scan [for i, row in enumerate(sheet_rows)], from index [i] on:
    the values of [header_row] and [header_idx] when it ends. *)
Fixpoint find_header_from (i : nat) (sheet_rows : Sheet) : option (list string) * nat :=
  match sheet_rows with
  | [] => (None, 0%nat)
  | row :: rest =>
      if is_header_row row then (Some (header_cells row), i)
      else find_header_from (S i) rest
  end.

Definition find_header (sheet_rows : Sheet) : option (list string) * nat :=
  find_header_from 0 sheet_rows.

(** The closure [get_val(key, default)] of one data row. *)
Definition get_val (col_map : gmap string nat) (row : Row)
    (key : string) (default : Cell) : Cell :=
  match col_map !! key with
  | None => default
  | Some idx =>
      match row !! idx with
      | None => default
      | Some val => if is_none val then default else val
      end
  end.

(** [all(c is None or str(c).strip() == "" for c in row)] *)
Definition all_blank (row : Row) : bool :=
  forallb (fun c => is_none c || String.eqb (strip (py_str c)) "") row.

(** [str(upc_raw).strip() if upc_raw else ""] *)
Definition upc_text (upc_raw : Cell) : string :=
  if truthy upc_raw then strip (py_str upc_raw) else "".

(** [cogs_ratio = total_cost / total_msrp if total_msrp > 0 else 0] *)
Definition cogs_ratio (meta : OrderMeta) : res num :=
  if gt0 (total_msrp meta)
  then r <- truediv (total_cost meta) (total_msrp meta) ;; Ok (PFloat r)
  else Ok (PInt 0).

(** The [try] block that sets [quantity]. *)
Definition parse_quantity (c : Cell) : res Z :=
  try_value_type (f <- py_float c ;; int_of_float f) (Ok 1%Z).

(** The [try] block that sets [unit_retail]. *)
Definition parse_unit_retail (c : Cell) : res float :=
  try_value_type (py_float c) (Ok 0%float).

(** The [try] block that sets [total_retail], and the override that
    follows it. *)
Definition parse_total_retail (c : Cell) (unit_retail : float) (quantity : Z)
    : res float :=
  total_retail <- try_value_type (py_float c) (fmul unit_retail (PInt quantity)) ;;
  if (total_retail =? 0)%float && (0 <? unit_retail)%float
  then fmul unit_retail (PInt quantity)
  else Ok total_retail.

(** The body of the loop over data rows: [Ok None] is [continue],
    [Ok (Some r)] is [rows.append(r)]. *)
Definition parse_row (oid : string) (meta : OrderMeta) (ratio : num)
    (col_map : gmap string nat) (row : Row) : res (option ManifestRecord) :=
  if is_nil row || all_blank row then Ok None
  else
    let get := get_val col_map row in
    let listing_id := strip (py_str (get "listing_id" (CStr ""))) in
    let product_name := strip (py_str (get "product_name" (CStr ""))) in
    if String.eqb product_name "" || String.eqb (lower product_name) "product name"
    then Ok None
    else
      let upc := clean_upc_text (upc_text (get "upc" (CStr ""))) in
      let asin := if truthy (get "asin" CNone)
                  then strip (py_str (get "asin" (CStr ""))) else "" in
      quantity <- parse_quantity (get "quantity" (CInt 1)) ;;
      unit_retail <- parse_unit_retail (get "unit_retail" (CInt 0)) ;;
      total_retail <- parse_total_retail (get "total_retail" (CInt 0))
                        unit_retail quantity ;;
      allocated <- fmul unit_retail ratio ;;
      Ok (Some {|
        order_id := oid;
        listing_id := listing_id;
        listing_title := strip (py_str (get "listing_title" (CStr "")));
        category := strip (py_str (get "category" (CStr "")));
        product_name := product_name;
        upc := upc;
        asin := asin;
        quantity := quantity;
        unit_retail := unit_retail;
        total_retail := total_retail;
        order_date := date meta;
        line_item_brands := default "" (pallet_brands meta !! listing_id);
        allocated_cogs_per_unit := allocated
      |}).

(** [for row in sheet_rows[header_idx + 1:]], with [rows] threaded through. *)
Fixpoint parse_rows (oid : string) (meta : OrderMeta) (ratio : num)
    (col_map : gmap string nat) (data : list Row)
    (rows : list ManifestRecord) : res (list ManifestRecord) :=
  match data with
  | [] => Ok rows
  | row :: rest =>
      r <- parse_row oid meta ratio col_map row ;;
      parse_rows oid meta ratio col_map rest
        (match r with Some rec => rows ++ [rec] | None => rows end)
  end.

(** The body of the loop over sheets. *)
Definition parse_sheet (oid : string) (meta : OrderMeta) (ratio : num)
    (sheet_rows : Sheet) (rows : list ManifestRecord) : res (list ManifestRecord) :=
  match sheet_rows with
  | [] => Ok rows
  | _ =>
      match find_header sheet_rows with
      | (None, _) | (Some [], _) => Ok rows
      | (Some header_row, header_idx) =>
          parse_rows oid meta ratio (build_col_map header_row)
            (drop (S header_idx) sheet_rows) rows
      end
  end.

Fixpoint parse_sheets (oid : string) (meta : OrderMeta) (ratio : num)
    (sheets : Workbook) (rows : list ManifestRecord) : res (list ManifestRecord) :=
  match sheets with
  | [] => Ok rows
  | sh :: rest =>
      rows' <- parse_sheet oid meta ratio sh rows ;;
      parse_sheets oid meta ratio rest rows'
  end.

(** [parse_manifest_xlsx(filepath, order_id, order_meta)]; the workbook is
    [None] when [openpyxl.load_workbook] raises. *)
Definition parse_manifest_xlsx (wb : option Workbook) (oid : string)
    (meta : OrderMeta) : res (list ManifestRecord) :=
  match wb with
  | None => Ok []
  | Some sheets =>
      ratio <- cogs_ratio meta ;;
      parse_sheets oid meta ratio sheets []
  end.

(** The loop [for filepath in xlsx_files] of [main]: a file is its base name
    and its workbook. *)
Fixpoint parse_files (orders_map : gmap string OrderMeta)
    (files : list (string * option Workbook))
    (all_rows : list ManifestRecord) : res (list ManifestRecord) :=
  match files with
  | [] => Ok all_rows
  | (filename, wb) :: rest =>
      let oid := order_id_of_filename filename in
      let meta := default default_meta (orders_map !! oid) in
      rows <- parse_manifest_xlsx wb oid meta ;;
      parse_files orders_map rest (all_rows ++ rows)
  end.

End Parser.

(** [f(x)] under a result. *)
Definition res_map {A B : Type} (f : A -> B) (r : res A) : res B :=
  match r with
  | Ok a => Ok (f a)
  | Raise e => Raise e
  end.

(** The condition under which [get_val] returns its default: the column is
    not mapped, the row is too short, or the cell is [None]. *)
Definition absent (col_map : gmap string nat) (row : Row) (key : string) : bool :=
  match col_map !! key with
  | None => true
  | Some idx =>
      match row !! idx with
      | None => true
      | Some val => is_none val
      end
  end.

(** ** Predicates of the statements *)

(** [all_digits s]: every character of [s] is a digit. *)
Fixpoint all_digits (s : string) : bool :=
  match s with
  | EmptyString => true
  | String c s' => is_digit c && all_digits s'
  end.

(** What [lstrip] returns is empty or starts with a character that is not
    white space; [rstrip] keeps that. *)
Definition trimmed_left (s : string) : bool :=
  match s with
  | EmptyString => true
  | String c _ => negb (is_space c)
  end.

(** [c] occurs in [s]. *)
Fixpoint has_char (c : ascii) (s : string) : bool :=
  match s with
  | EmptyString => false
  | String d s' => Ascii.eqb c d || has_char c s'
  end.

(** The values that do not compare below zero: the zeros, the NaN, and what
    is finite or infinite with the sign bit clear. *)
Definition sf_not_neg (x : spec_float) : bool :=
  match x with
  | S754_nan | S754_zero _ => true
  | S754_infinity s | S754_finite s _ _ => negb s
  end.

Definition sf_is_zero (x : spec_float) : bool :=
  match x with S754_zero _ => true | _ => false end.

(** [r] returns or raises [OverflowError], the one exception of the
    conversions that no [except] clause names. *)
Definition overflow_only {A : Type} (r : res A) : Prop :=
  forall e, r = Raise e -> e = OverflowError.

Section RowPredicates.

Context {FT : FloatText}.

(** What [parse_row] read from the row when it appended the record [r]. *)
Record emits (oid : string) (meta : OrderMeta) (ratio : num)
    (col_map : gmap string nat) (row : Row) (r : ManifestRecord) : Prop := {
  em_not_blank : is_nil row || all_blank row = false;
  em_order_id : order_id r = oid;
  em_listing_id :
    listing_id r = strip (py_str (get_val col_map row "listing_id" (CStr "")));
  em_product_name :
    product_name r = strip (py_str (get_val col_map row "product_name" (CStr "")));
  em_product_name_kept :
    String.eqb (product_name r) ""
    || String.eqb (lower (product_name r)) "product name" = false;
  em_upc : upc r = clean_upc_text (upc_text (get_val col_map row "upc" (CStr "")));
  em_quantity :
    parse_quantity (get_val col_map row "quantity" (CInt 1)) = Ok (quantity r);
  em_unit_retail :
    parse_unit_retail (get_val col_map row "unit_retail" (CInt 0))
    = Ok (unit_retail r);
  em_total_retail :
    parse_total_retail (get_val col_map row "total_retail" (CInt 0))
      (unit_retail r) (quantity r) = Ok (total_retail r);
  em_allocated : fmul (unit_retail r) ratio = Ok (allocated_cogs_per_unit r);
  em_order_date : order_date r = date meta;
  em_brands :
    line_item_brands r = default "" (pallet_brands meta !! listing_id r)
}.

(** [r] was appended by some call of [parse_row]. *)
Definition emitted (oid : string) (meta : OrderMeta) (ratio : num)
    (r : ManifestRecord) : Prop :=
  exists col_map row, parse_row oid meta ratio col_map row = Ok (Some r).

End RowPredicates.

(** A row qualifies as a header row when one of its cells is not null and
    its trimmed, lowercased text is one of the canonical header names. *)
Definition qualifies (row : Row) : Prop :=
  exists c, c ∈ row /\ c <> CNone
            /\ lower (strip (py_str c)) ∈ EXPECTED_HEADERS.

(** The identity tuple of a record, as a value. *)
Definition identity_tuple (r : ManifestRecord) : string * string * string * string :=
  (order_id r, listing_id r, product_name r, upc r).

(** What an upsert of [r] does to one stored row. *)
Definition updated_by (r old : ManifestRecord) : ManifestRecord :=
  if same_key r old then do_update old r else old.

(** A stored row after the upserts of [rs], in order. *)
Definition updated_by_all (rs : list ManifestRecord) (old : ManifestRecord)
    : ManifestRecord :=
  fold_left (fun x r => updated_by r x) rs old.

(** No occurrence of [sep] starts inside [cur] when [cur] is followed by
    [s]: the invariant of the scan
    of [split]. *)
Definition no_start_in (sep cur s : string) : Prop :=
  forall a b, cur = a +:+ b -> b <> "" -> String.prefix sep (b +:+ s) = false.

(** ** Sample inputs

    A small manifest, its order, and the records the parser returns for it;
    the examples below run the definitions on them. *)

Definition sample_header : Row :=
  [CStr "Listing ID"; CStr "Product Name"; CStr "UPC"; CStr "Quantity";
   CStr "Orig. Retail"; CStr "Total Orig. Retail"].

Definition vacuum_row : Row :=
  [CInt 77; CStr " Vacuum "; CFloat 12345678901; CInt 3; CInt 10; CNone].

Definition mop_row : Row :=
  [CStr "L2"; CStr "Mop"; CStr "N/A"; CStr "2"; CStr "5.5"; CInt 0].

Definition blank_name_row : Row :=
  [CInt 77; CStr "  "; CInt 12345; CInt 1; CInt 4; CInt 4].

Definition sample_sheet : Sheet :=
  [[CStr "TechLiquidators manifest"; CNone];
   sample_header; vacuum_row; blank_name_row; mop_row].

Definition sample_col_map : gmap string nat :=
  build_col_map (header_cells sample_header).

Definition sample_meta : OrderMeta :=
  {| date := "2024-01-01";
     total_cost := PInt 500;
     total_msrp := PFloat 2000;
     pallet_brands := {[ "77" := "iRobot, Shark" ]} |}.

Definition vacuum_record : ManifestRecord :=
  {| order_id := "123"; listing_id := "77"; listing_title := "";
     category := ""; product_name := "Vacuum"; upc := "12345678901";
     asin := ""; quantity := 3; unit_retail := 10; total_retail := 30;
     order_date := "2024-01-01"; line_item_brands := "iRobot, Shark";
     allocated_cogs_per_unit := 2.5 |}.

Definition mop_record : ManifestRecord :=
  {| order_id := "123"; listing_id := "L2"; listing_title := "";
     category := ""; product_name := "Mop"; upc := "N/A";
     asin := ""; quantity := 2; unit_retail := 5.5; total_retail := 11;
     order_date := "2024-01-01"; line_item_brands := "";
     allocated_cogs_per_unit := 1.375 |}.

(** Rows with cells that the spreadsheet format allows and the data model
    does not expect. *)
Definition nan_retail_row : Row :=
  [CStr "L3"; CStr "Lamp"; CNone; CInt 1; CStr "nan"; CNone].

Definition inf_retail_row : Row :=
  [CStr "L3"; CStr "Desk"; CNone; CInt 1; CStr "inf"; CNone].

Definition negative_row : Row :=
  [CStr "L4"; CStr "Refund"; CNone; CInt (-3); CInt (-5); CInt (-7)].

Definition negative_retail_row : Row :=
  [CStr "L4"; CStr "Credit"; CNone; CInt 3; CInt (-5); CNone].

Definition vacuum_item : Item :=
  {| price := PInt 300; msrp := PFloat 1200.5; item_count := PInt 40;
     title := "Vacuums & Floorcare - iRobot, BISSELL, Shark - Orig. Retail $28,292";
     pallet_ids := ["P1"; "P2"] |}.

Definition untitled_item : Item :=
  {| price := PInt 200; msrp := PInt 800; item_count := PInt 10;
     title := "Mixed lot - no brands"; pallet_ids := ["P3"] |}.

(** A row whose UPC cell is [c]. *)
Definition falsy_upc_row (c : Cell) : Row :=
  [CStr "L6"; CStr "Lamp"; c; CInt 1; CInt 4; CNone].

Definition inf_quantity_row : Row :=
  [CStr "L5"; CStr "Crate"; CNone; CStr "inf"; CInt 1; CNone].

(** A batch of two rows: the sink takes the first one, and refuses the second
    one at its first attempt only. *)
Definition sample_batch : list Attempt :=
  [ {| att_row := vacuum_record; first_ok := true; retry_ok := true |};
    {| att_row := mop_record; first_ok := false; retry_ok := true |} ].

(** Three entries of [orders.json]: one without an order id, and two orders
    of which the second has integer amounts only. *)
Definition untitled_order : Order :=
  {| ord_id := "124"; ord_date := "2024-02-02"; ord_items := [untitled_item] |}.

Definition sample_orders : list Order :=
  [ {| ord_id := ""; ord_date := "2023-12-31"; ord_items := [vacuum_item] |};
    {| ord_id := "123"; ord_date := "2024-01-01";
       ord_items := [vacuum_item; untitled_item] |};
    untitled_order ].

Definition untitled_meta : OrderMeta :=
  {| date := "2024-02-02"; total_cost := PInt 200; total_msrp := PInt 800;
     pallet_brands := pallet_brands_of [untitled_item] |}.

(** A run over two files: the first one holds the sample sheet, the second
    one cannot be read; only the first order is known. *)
Definition sample_orders_map : gmap string OrderMeta :=
  {[ "123" := sample_meta ]}.

Definition sample_files : list (string * option Workbook) :=
  [ ("order_manifest_123.xlsx", Some [sample_sheet]);
    ("order_manifest_9.xlsx", None) ].

(** * Properties *)

(** ** Characters and strings *)

Module PyStrFacts.

Ltac by_cases_on_char c :=
  destruct c as [[] [] [] [] [] [] [] []]; vm_compute; try reflexivity; try discriminate.

Lemma digit_not_space (c : ascii) : is_digit c = true -> is_space c = false.
Proof. by_cases_on_char c. Qed.

Lemma space_not_digit (c : ascii) : is_space c = true -> is_digit c = false.
Proof. by_cases_on_char c. Qed.

Lemma digit_not_dot (c : ascii) : is_digit c = true -> Ascii.eqb "." c = false.
Proof. by_cases_on_char c. Qed.

Lemma all_digits_digits (s : string) : all_digits (digits s) = true.
Proof.
  induction s as [|c s IH]; simpl; [reflexivity|].
  destruct (is_digit c) eqn:Hc; simpl; [rewrite Hc|]; assumption.
Qed.

Lemma digits_all_digits (s : string) : all_digits s = true -> digits s = s.
Proof.
  induction s as [|c s IH]; simpl; [reflexivity|].
  intros [Hc Hs]%andb_prop. rewrite Hc, IH; auto.
Qed.

Lemma digits_idem (s : string) : digits (digits s) = digits s.
Proof. apply digits_all_digits, all_digits_digits. Qed.

Lemma digits_lstrip (s : string) : digits (lstrip s) = digits s.
Proof.
  induction s as [|c s IH]; simpl; [reflexivity|].
  destruct (is_space c) eqn:Hc; [|reflexivity].
  rewrite (space_not_digit _ Hc). exact IH.
Qed.

Lemma digits_rstrip (s : string) : digits (rstrip s) = digits s.
Proof.
  induction s as [|c s IH]; simpl; [reflexivity|].
  destruct (rstrip s) as [|d r] eqn:Hr.
  - simpl in IH. rewrite <- IH.
    destruct (is_space c) eqn:Hc; simpl.
    + now rewrite (space_not_digit _ Hc).
    + reflexivity.
  - change (digits (String c (String d r)))
      with (if is_digit c then String c (digits (String d r)) else digits (String d r)).
    now rewrite IH.
Qed.

Lemma digits_strip (s : string) : digits (strip s) = digits s.
Proof. unfold strip. now rewrite digits_rstrip, digits_lstrip. Qed.

Lemma lstrip_all_digits (s : string) : all_digits s = true -> lstrip s = s.
Proof.
  destruct s as [|c s]; simpl; [reflexivity|].
  intros [Hc _]%andb_prop. now rewrite (digit_not_space _ Hc).
Qed.

Lemma rstrip_all_digits (s : string) : all_digits s = true -> rstrip s = s.
Proof.
  induction s as [|c s IH]; simpl; [reflexivity|].
  intros [Hc Hs]%andb_prop. rewrite (IH Hs).
  destruct s; [now rewrite (digit_not_space _ Hc) | reflexivity].
Qed.

Lemma strip_all_digits (s : string) : all_digits s = true -> strip s = s.
Proof.
  intros H. unfold strip. rewrite (lstrip_all_digits _ H). now apply rstrip_all_digits.
Qed.

Lemma endswith_dot0_all_digits (s : string) :
  all_digits s = true -> endswith ".0" s = false.
Proof.
  induction s as [|c s IH]; [reflexivity|].
  intros [Hc Hs]%andb_prop.
  change (endswith ".0" (String c s))
    with (String.eqb ".0" (String c s) || endswith ".0" s).
  rewrite (IH Hs), orb_false_r. cbn [String.eqb].
  now rewrite (digit_not_dot _ Hc).
Qed.

(** A string that ends with [.0] has a digit. *)
Lemma endswith_dot0_digits (s : string) :
  endswith ".0" s = true -> digits s <> "".
Proof.
  induction s as [|c s IH]; [discriminate|].
  change (endswith ".0" (String c s))
    with (String.eqb ".0" (String c s) || endswith ".0" s).
  intros [H|H]%orb_prop.
  - apply String.eqb_eq in H. rewrite <- H. discriminate.
  - specialize (IH H). simpl. destruct (is_digit c); [discriminate | exact IH].
Qed.

Lemma endswith_dot0_no_digits (s : string) :
  digits s = "" -> endswith ".0" s = false.
Proof.
  intros H. destruct (endswith ".0" s) eqn:E; [|reflexivity].
  now apply endswith_dot0_digits in E.
Qed.

End PyStrFacts.

Import PyStrFacts.

(** ** UPC cleaning *)

(** The two length tests of the source select the same value as the
    emptiness test that follows them. *)
Lemma clean_upc_text_eq (u : string) :
  clean_upc_text u =
  if String.eqb (digits (strip_dot0 u)) "" then strip_dot0 u
  else digits (strip_dot0 u).
Proof.
  unfold clean_upc_text. cbv zeta.
  destruct (digits (strip_dot0 u)) as [|c d]; [reflexivity|].
  cbn [String.eqb negb]. now destruct (_ || _).
Qed.

Lemma clean_upc_text_all_digits (u : string) :
  all_digits u = true -> clean_upc_text u = u.
Proof.
  intros H. rewrite clean_upc_text_eq. unfold strip_dot0.
  rewrite (endswith_dot0_all_digits _ H), (digits_all_digits _ H).
  now destruct (String.eqb_spec u "").
Qed.

Lemma clean_upc_text_no_digits (u : string) :
  digits u = "" -> clean_upc_text u = u.
Proof.
  intros H. rewrite clean_upc_text_eq. unfold strip_dot0.
  rewrite (endswith_dot0_no_digits _ H), H. reflexivity.
Qed.

(** The cleaned value is a digit string, or has no digit at all. *)
Lemma clean_upc_text_cases (u : string) :
  all_digits (clean_upc_text u) = true \/ digits (clean_upc_text u) = "".
Proof.
  rewrite clean_upc_text_eq.
  destruct (String.eqb_spec (digits (strip_dot0 u)) "") as [E|E].
  - now right.
  - left. apply all_digits_digits.
Qed.

Lemma clean_upc_of_cleaned (s : string) :
  clean_upc (clean_upc s) = strip (clean_upc s).
Proof.
  unfold clean_upc at 1.
  destruct (clean_upc_text_cases (strip s)) as [H|H]; fold (clean_upc s) in H.
  - rewrite (strip_all_digits _ H). now apply clean_upc_text_all_digits.
  - apply clean_upc_text_no_digits. now rewrite digits_strip.
Qed.

Lemma lstrip_idem (s : string) : lstrip (lstrip s) = lstrip s.
Proof.
  induction s as [|c s IH]; simpl; [reflexivity|].
  destruct (is_space c) eqn:Hc; [exact IH|]. simpl. now rewrite Hc.
Qed.

Lemma rstrip_idem (s : string) : rstrip (rstrip s) = rstrip s.
Proof.
  induction s as [|c s IH]; simpl; [reflexivity|].
  destruct (rstrip s) as [|d r] eqn:Hr.
  - destruct (is_space c) eqn:Hc; simpl; [reflexivity | now rewrite Hc].
  - change (rstrip (String c (String d r)))
      with (match rstrip (String d r) with
            | EmptyString => if is_space c then EmptyString else String c EmptyString
            | r' => String c r'
            end).
    now rewrite IH.
Qed.

Lemma trimmed_left_lstrip (s : string) : trimmed_left (lstrip s) = true.
Proof.
  induction s as [|c s IH]; simpl; [reflexivity|].
  destruct (is_space c) eqn:Hc; [exact IH|]. simpl. now rewrite Hc.
Qed.

Lemma lstrip_trimmed_left (s : string) : trimmed_left s = true -> lstrip s = s.
Proof.
  destruct s as [|c s]; simpl; [reflexivity|].
  now intros ->%negb_true_iff.
Qed.

Lemma trimmed_left_rstrip (s : string) :
  trimmed_left s = true -> trimmed_left (rstrip s) = true.
Proof.
  destruct s as [|c s]; simpl; [reflexivity|].
  intros H. pose proof H as ->%negb_true_iff.
  now destruct (rstrip s).
Qed.

Lemma strip_idem (s : string) : strip (strip s) = strip s.
Proof.
  unfold strip.
  rewrite (lstrip_trimmed_left (rstrip (lstrip s))).
  - apply rstrip_idem.
  - apply trimmed_left_rstrip, trimmed_left_lstrip.
Qed.

(** C4 (counterexample): cleaning is not idempotent on the text [a .0].
    The trailing [.0] is dropped after the trim, which leaves [a] with a
    trailing blank, and no digit: the first cleaning returns it as it is, the
    second one trims it. *)
Lemma clean_upc_not_idempotent :
  clean_upc "a .0" = "a "
  /\ clean_upc (clean_upc "a .0") = "a"
  /\ String.eqb (clean_upc (clean_upc "a .0")) (clean_upc "a .0") = false.
Proof. repeat split. Qed.

(** C4 (amended): cleaning a cleaned UPC trims it and does nothing else.
    So a second cleaning returns the same value whenever the cleaned value
    contains a digit (it is then a digit string), and cleaning is idempotent
    from the second application on. *)
Theorem clean_upc_twice (s : string) :
  clean_upc (clean_upc s) = strip (clean_upc s)
  /\ (digits (clean_upc s) <> "" -> clean_upc (clean_upc s) = clean_upc s)
  /\ clean_upc (clean_upc (clean_upc s)) = clean_upc (clean_upc s).
Proof.
  split; [apply clean_upc_of_cleaned|]. split.
  - intros Hd. rewrite clean_upc_of_cleaned.
    destruct (clean_upc_text_cases (strip s)) as [H|H]; fold (clean_upc s) in H.
    + now apply strip_all_digits.
    + contradiction.
  - rewrite (clean_upc_of_cleaned (clean_upc s)), clean_upc_of_cleaned.
    apply strip_idem.
Qed.

Lemma clean_upc_twice_witness :
  clean_upc (clean_upc " 0123456789012.0 ") = clean_upc " 0123456789012.0 ".
Proof.
  apply (proj1 (proj2 (clean_upc_twice " 0123456789012.0 "))).
  vm_compute. discriminate.
Defined.

(** ** Results *)

Lemma bind_Ok {A B : Type} (r : res A) (k : A -> res B) (b : B) :
  (x <- r ;; k x) = Ok b -> exists a, r = Ok a /\ k a = Ok b.
Proof. destruct r as [a|e]; simpl; [eauto | discriminate]. Qed.

Lemma try_value_type_Ok {A : Type} (r h : res A) (a : A) :
  try_value_type r h = Ok a ->
  r = Ok a \/ ((r = Raise ValueError \/ r = Raise TypeError) /\ h = Ok a).
Proof. destruct r as [x|[]]; simpl; intros H; auto; discriminate. Qed.

(** ** Rows and records *)

Section ParserFacts.

Context {FT : FloatText}.

Lemma parse_row_emits oid meta ratio col_map row r :
  parse_row oid meta ratio col_map row = Ok (Some r) ->
  emits oid meta ratio col_map row r.
Proof.
  unfold parse_row.
  destruct (is_nil row || all_blank row) eqn:Hb; [discriminate|].
  cbv zeta.
  destruct (String.eqb _ "" || String.eqb (lower _) "product name") eqn:Hp;
    [discriminate|].
  intros (q & Hq & H)%bind_Ok.
  apply bind_Ok in H as (u & Hu & H).
  apply bind_Ok in H as (t & Ht & H).
  apply bind_Ok in H as (a & Ha & H).
  injection H as <-. now constructor.
Qed.

(** A row is skipped, never an error, when its product name is blank or is
    the header text. *)
Lemma parse_row_skips oid meta ratio col_map row :
  let product_name := strip (py_str (get_val col_map row "product_name" (CStr ""))) in
  String.eqb product_name "" || String.eqb (lower product_name) "product name" = true ->
  parse_row oid meta ratio col_map row = Ok None.
Proof.
  cbv zeta. intros H. unfold parse_row.
  destruct (is_nil row || all_blank row); [reflexivity|].
  cbv zeta. now rewrite H.
Qed.

(** The records appended by the loops come from rows, one [parse_row] each. *)
Lemma parse_rows_from oid meta ratio col_map (data : list Row) :
  forall rows out,
  parse_rows oid meta ratio col_map data rows = Ok out ->
  exists new,
    out = (rows ++ new)%list
    /\ Forall (fun r => exists j row,
                 data !! j = Some row
                 /\ parse_row oid meta ratio col_map row = Ok (Some r)) new.
Proof.
  induction data as [|row data IH]; simpl; intros rows out H.
  - injection H as <-. exists []. now rewrite app_nil_r.
  - apply bind_Ok in H as (o & Ho & H).
    apply IH in H as (new & -> & Hnew).
    assert (Hshift : Forall (fun r => exists j row',
              (row :: data) !! j = Some row'
              /\ parse_row oid meta ratio col_map row' = Ok (Some r)) new).
    { eapply Forall_impl; [exact Hnew|].
      intros r (j & row' & Hj & Hr). now exists (S j), row'. }
    destruct o as [rec|].
    + exists (rec :: new). split.
      * now rewrite <- app_assoc.
      * constructor; [|exact Hshift]. now exists 0%nat, row.
    + now exists new.
Qed.

End ParserFacts.

(** ** Floats: signs and zeros *)

Module FloatFacts.

Lemma Prim2SF_zero : Prim2SF 0 = S754_zero false.
Proof. reflexivity. Qed.

Lemma ltb_zero_not_neg (f : float) :
  (f <? 0)%float = negb (sf_not_neg (Prim2SF f)).
Proof.
  rewrite FloatAxioms.ltb_spec, Prim2SF_zero.
  now destruct (Prim2SF f) as [[]|[]| |[] ? ?].
Qed.

Lemma eqb_zero_is_zero (f : float) :
  (f =? 0)%float = sf_is_zero (Prim2SF f).
Proof.
  rewrite FloatAxioms.eqb_spec, Prim2SF_zero.
  now destruct (Prim2SF f) as [[]|[]| |[] ? ?].
Qed.

Lemma gt_zero_cases (f : float) :
  (0 <? f)%float = true ->
  sf_not_neg (Prim2SF f) = true /\ sf_is_zero (Prim2SF f) = false.
Proof.
  rewrite FloatAxioms.ltb_spec, Prim2SF_zero.
  now destruct (Prim2SF f) as [[]|[]| |[] ? ?].
Qed.

Lemma gt_zero_not_zero (f : float) :
  (0 <? f)%float = true -> (f =? 0)%float = false.
Proof. intros H. rewrite eqb_zero_is_zero. now apply gt_zero_cases. Qed.

Lemma eq_zero_not_gt (f : float) :
  (f =? 0)%float = true -> (0 <? f)%float = false.
Proof.
  intros H. destruct (0 <? f)%float eqn:E; [|reflexivity].
  apply gt_zero_not_zero in E. congruence.
Qed.

(** Rounding keeps a clear sign bit clear. *)
Lemma binary_round_aux_not_neg (m e : Z) (l : location) :
  sf_not_neg (binary_round_aux prec emax false m e l) = true.
Proof.
  unfold binary_round_aux.
  destruct (shr_fexp prec emax m e l) as [mrs' e'].
  destruct (shr_fexp prec emax _ e' loc_Exact) as [mrs'' e''].
  destruct (shr_m mrs''); [reflexivity| |reflexivity].
  now destruct (_ <=? _)%Z.
Qed.

Lemma binary_round_not_neg (m : positive) (e : Z) :
  sf_not_neg (binary_round prec emax false m e) = true.
Proof.
  unfold binary_round. destruct (shl_align _ _ _). apply binary_round_aux_not_neg.
Qed.

Lemma binary_normalize_not_neg (z e : Z) :
  (0 <= z)%Z -> sf_not_neg (binary_normalize prec emax z e false) = true.
Proof.
  destruct z; intros H; simpl; [reflexivity | apply binary_round_not_neg | lia].
Qed.

Lemma SFmul_not_neg (x y : spec_float) :
  sf_not_neg x = true -> sf_not_neg y = true ->
  sf_not_neg (SFmul prec emax x y) = true.
Proof.
  destruct x as [sx|[]| |[] mx ex], y as [sy|[]| |[] my ey];
    simpl; try discriminate; try reflexivity; intros _ _.
  apply binary_round_aux_not_neg.
Qed.

Lemma mul_not_neg (x y : float) :
  (x <? 0)%float = false -> (y <? 0)%float = false -> (x * y <? 0)%float = false.
Proof.
  rewrite !ltb_zero_not_neg, !negb_false_iff, FloatAxioms.mul_spec.
  apply SFmul_not_neg.
Qed.

(** A float built from a spec float with a clear sign bit is not negative. *)
Lemma SF2Prim_not_neg (x : spec_float) :
  sf_not_neg x = true -> (SF2Prim x <? 0)%float = false.
Proof.
  rewrite ltb_zero_not_neg, negb_false_iff.
  destruct x as [[]|[]| |[] m e]; try discriminate; try reflexivity; intros _.
  unfold SF2Prim. rewrite Z_ldexp_spec, of_uint63_spec.
  pose proof (Uint63.to_Z_bounded (Uint63.of_Z (Z.pos m))) as [Hn _].
  pose proof (binary_normalize_not_neg _ 0 Hn) as Hc.
  destruct (binary_normalize prec emax _ 0 false) as [[]|[]| |[] m' e'];
    try discriminate; try reflexivity.
  simpl. apply binary_round_not_neg.
Qed.

(** A product with zero is a zero unless the other factor is infinite or a
    NaN. *)
Lemma mul_zero_r (x : float) :
  PrimFloat.is_finite x = true -> (x * 0 =? 0)%float = true.
Proof.
  unfold PrimFloat.is_finite, is_nan, is_infinity.
  rewrite negb_true_iff, orb_false_iff, negb_false_iff.
  rewrite eqb_zero_is_zero, FloatAxioms.mul_spec, Prim2SF_zero, !FloatAxioms.eqb_spec,
    FloatAxioms.abs_spec.
  change (Prim2SF infinity) with (S754_infinity false).
  destruct (Prim2SF x) as [[]|[]| |[] m e]; simpl; intros [H1 H2];
    try discriminate; reflexivity.
Qed.

End FloatFacts.

Import FloatFacts.

(** ** Records of a workbook *)

Section WorkbookFacts.

Context {FT : FloatText}.

Lemma parse_sheet_from oid meta ratio (sheet : Sheet) rows out :
  parse_sheet oid meta ratio sheet rows = Ok out ->
  exists new, out = (rows ++ new)%list /\ Forall (emitted oid meta ratio) new.
Proof.
  unfold parse_sheet. intros H.
  assert (Hnil : exists new, rows = (rows ++ new)%list
                             /\ Forall (emitted oid meta ratio) new).
  { exists []. now rewrite app_nil_r. }
  destruct sheet as [|row0 sheet]; [now injection H as <-|].
  destruct (find_header (row0 :: sheet)) as [[[|h hs]|] idx];
    try (now injection H as <-).
  apply parse_rows_from in H as (new & -> & Hnew).
  exists new. split; [reflexivity|].
  eapply Forall_impl; [exact Hnew|].
  intros r (j & row & _ & Hr). now exists (build_col_map (h :: hs)), row.
Qed.

Lemma parse_sheets_from oid meta ratio (sheets : Workbook) :
  forall rows out,
  parse_sheets oid meta ratio sheets rows = Ok out ->
  exists new, out = (rows ++ new)%list /\ Forall (emitted oid meta ratio) new.
Proof.
  induction sheets as [|sh sheets IH]; simpl; intros rows out H.
  - injection H as <-. exists []. now rewrite app_nil_r.
  - apply bind_Ok in H as (rows' & Hsh & H).
    apply parse_sheet_from in Hsh as (new1 & -> & H1).
    apply IH in H as (new2 & -> & H2).
    exists (new1 ++ new2)%list. split; [now rewrite app_assoc|].
    now apply Forall_app.
Qed.

(** Every record of a parsed workbook was appended by [parse_row], under the
    one ratio computed for the order. *)
Lemma parse_manifest_emitted (sheets : Workbook) oid meta rows :
  parse_manifest_xlsx (Some sheets) oid meta = Ok rows ->
  exists ratio, cogs_ratio meta = Ok ratio /\ Forall (emitted oid meta ratio) rows.
Proof.
  unfold parse_manifest_xlsx. intros (ratio & Hr & H)%bind_Ok.
  exists ratio. split; [exact Hr|].
  now apply parse_sheets_from in H as (new & -> & Hnew).
Qed.

Lemma parse_manifest_unreadable oid meta :
  parse_manifest_xlsx None oid meta = Ok [].
Proof. reflexivity. Qed.

(** *** Exceptions that escape *)

Lemma overflow_only_Ok {A : Type} (a : A) : overflow_only (Ok a).
Proof. intros e H. discriminate. Qed.

Lemma overflow_only_bind {A B : Type} (r : res A) (k : A -> res B) :
  overflow_only r -> (forall a, overflow_only (k a)) ->
  overflow_only (x <- r ;; k x).
Proof.
  intros Hr Hk e. destruct r as [a|e']; simpl.
  - apply Hk.
  - intros [= <-]. now apply Hr.
Qed.

Lemma overflow_only_try {A : Type} (r h : res A) :
  (forall e, r = Raise e -> e <> ZeroDivisionError) ->
  overflow_only h -> overflow_only (try_value_type r h).
Proof.
  intros Hr Hh e. destruct r as [a|[]]; simpl; try discriminate;
    try apply Hh; intros [= <-]; try reflexivity.
  now destruct (Hr _ eq_refl).
Qed.

Lemma float_of_int_overflow_only z : overflow_only (float_of_int z).
Proof.
  intros e. unfold float_of_int.
  destruct (binary_normalize _ _ _ _ _); try discriminate. now intros [= <-].
Qed.

Lemma fmul_overflow_only x n : overflow_only (fmul x n).
Proof.
  destruct n as [z|y]; simpl; [|apply overflow_only_Ok].
  apply overflow_only_bind; [apply float_of_int_overflow_only|].
  intros a. apply overflow_only_Ok.
Qed.

Lemma py_float_no_zero_division c e :
  py_float c = Raise e -> e <> ZeroDivisionError.
Proof.
  destruct c as [|b|z|f|s|s|]; simpl; try discriminate; try (now intros [= <-]).
  - intros H. now rewrite (float_of_int_overflow_only _ _ H).
  - destruct (float_of_str s); [discriminate | now intros [= <-]].
Qed.

Lemma int_of_float_no_zero_division f e :
  int_of_float f = Raise e -> e <> ZeroDivisionError.
Proof.
  unfold int_of_float. destruct (Prim2SF f); try discriminate; now intros [= <-].
Qed.

Lemma parse_quantity_overflow_only c : overflow_only (parse_quantity c).
Proof.
  apply overflow_only_try; [|apply overflow_only_Ok].
  intros e. destruct (py_float c) as [f|e'] eqn:Hc; simpl.
  - apply int_of_float_no_zero_division.
  - intros [= <-]. now apply py_float_no_zero_division in Hc.
Qed.

Lemma parse_unit_retail_overflow_only c : overflow_only (parse_unit_retail c).
Proof.
  apply overflow_only_try; [|apply overflow_only_Ok].
  intros e. apply py_float_no_zero_division.
Qed.

Lemma parse_total_retail_overflow_only c u q :
  overflow_only (parse_total_retail c u q).
Proof.
  apply overflow_only_bind.
  - apply overflow_only_try; [|apply fmul_overflow_only].
    intros e. apply py_float_no_zero_division.
  - intros t. destruct (_ && _); [apply fmul_overflow_only | apply overflow_only_Ok].
Qed.

Lemma parse_row_overflow_only oid meta ratio col_map row :
  overflow_only (parse_row oid meta ratio col_map row).
Proof.
  unfold parse_row.
  destruct (is_nil row || all_blank row); [apply overflow_only_Ok|].
  cbv zeta. destruct (_ || _); [apply overflow_only_Ok|].
  apply overflow_only_bind; [apply parse_quantity_overflow_only|]. intros q.
  apply overflow_only_bind; [apply parse_unit_retail_overflow_only|]. intros u.
  apply overflow_only_bind; [apply parse_total_retail_overflow_only|]. intros t.
  apply overflow_only_bind; [apply fmul_overflow_only|]. intros a.
  apply overflow_only_Ok.
Qed.

Lemma parse_rows_overflow_only oid meta ratio col_map data :
  forall rows, overflow_only (parse_rows oid meta ratio col_map data rows).
Proof.
  induction data as [|row data IH]; simpl; intros rows;
    [apply overflow_only_Ok|].
  apply overflow_only_bind; [apply parse_row_overflow_only|]. intros o. apply IH.
Qed.

Lemma parse_sheets_overflow_only oid meta ratio sheets :
  forall rows, overflow_only (parse_sheets oid meta ratio sheets rows).
Proof.
  induction sheets as [|sh sheets IH]; simpl; intros rows;
    [apply overflow_only_Ok|].
  apply overflow_only_bind; [|intros rows'; apply IH].
  unfold parse_sheet. destruct sh as [|row0 sh]; [apply overflow_only_Ok|].
  destruct (find_header (row0 :: sh)) as [[[|h hs]|] idx];
    try apply overflow_only_Ok.
  apply parse_rows_overflow_only.
Qed.

End WorkbookFacts.

(** ** The cost allocation *)

Lemma eq0_not_gt0 (n : num) : eq0 n = true -> gt0 n = false.
Proof.
  destruct n as [z|f]; simpl.
  - intros ->%Z.eqb_eq. reflexivity.
  - apply eq_zero_not_gt.
Qed.

Lemma fmul_int_zero (x : float) : fmul x (PInt 0) = Ok (x * 0)%float.
Proof. reflexivity. Qed.

Section Allocation.

Context {FT : FloatText}.

Lemma cogs_ratio_positive meta ratio :
  gt0 (total_msrp meta) = true -> cogs_ratio meta = Ok ratio ->
  exists q, truediv (total_cost meta) (total_msrp meta) = Ok q /\ ratio = PFloat q.
Proof.
  unfold cogs_ratio. intros -> (q & Hq & [= <-])%bind_Ok. eauto.
Qed.

Lemma cogs_ratio_not_positive meta :
  gt0 (total_msrp meta) = false -> cogs_ratio meta = Ok (PInt 0).
Proof. unfold cogs_ratio. now intros ->. Qed.

(** C1 (amended): for an order whose [total_msrp] is greater than 0, every
    record of the parsed workbook has [allocated_cogs_per_unit] equal to
    [unit_retail * (total_cost / total_msrp)], one ratio for all of them. For
    an order whose [total_msrp] is not greater than 0 (0 in particular) no
    division is evaluated, no [ZeroDivisionError] can escape, and every record
    has [allocated_cogs_per_unit = unit_retail * 0]: that compares equal to 0
    whenever [unit_retail] is finite, and is a NaN otherwise. *)
Theorem cogs_allocation (sheets : Workbook) (oid : string) (meta : OrderMeta) :
  (gt0 (total_msrp meta) = true ->
   forall rows, parse_manifest_xlsx (Some sheets) oid meta = Ok rows ->
   exists ratio,
     truediv (total_cost meta) (total_msrp meta) = Ok ratio
     /\ Forall (fun r => allocated_cogs_per_unit r = (unit_retail r * ratio)%float)
          rows)
  /\ (gt0 (total_msrp meta) = false ->
      cogs_ratio meta = Ok (PInt 0)
      /\ parse_manifest_xlsx (Some sheets) oid meta <> Raise ZeroDivisionError
      /\ forall rows, parse_manifest_xlsx (Some sheets) oid meta = Ok rows ->
         Forall (fun r =>
                   allocated_cogs_per_unit r = (unit_retail r * 0)%float
                   /\ (PrimFloat.is_finite (unit_retail r) = true ->
                       (allocated_cogs_per_unit r =? 0)%float = true)) rows).
Proof.
  split.
  - intros Hpos rows (ratio & Hr & Hrows)%parse_manifest_emitted.
    destruct (cogs_ratio_positive _ _ Hpos Hr) as (q & Hq & ->).
    exists q. split; [exact Hq|].
    eapply Forall_impl; [exact Hrows|].
    intros r (col_map & row & Hrow). apply parse_row_emits in Hrow.
    pose proof (em_allocated _ _ _ _ _ _ Hrow) as Ha. simpl in Ha.
    now injection Ha.
  - intros Hz. pose proof (cogs_ratio_not_positive _ Hz) as Hr.
    split; [exact Hr|]. split.
    + unfold parse_manifest_xlsx. rewrite Hr. simpl. intros H.
      now apply parse_sheets_overflow_only in H.
    + intros rows (ratio & Hr' & Hrows)%parse_manifest_emitted.
      rewrite Hr in Hr'. injection Hr' as <-.
      eapply Forall_impl; [exact Hrows|].
      intros r (col_map & row & Hrow). apply parse_row_emits in Hrow.
      pose proof (em_allocated _ _ _ _ _ _ Hrow) as Ha.
      rewrite fmul_int_zero in Ha. injection Ha as Ha.
      split; [now symmetry|]. intros Hfin. rewrite <- Ha. now apply mul_zero_r.
Qed.

End Allocation.

(** ** Field normalisation *)

Section FieldFacts.

Context {FT : FloatText}.

Lemma get_val_absent col_map (row : Row) key d :
  absent col_map row key = true -> get_val col_map row key d = d.
Proof.
  unfold absent, get_val. destruct (col_map !! key) as [idx|]; [|reflexivity].
  destruct (row !! idx) as [val|]; [|reflexivity]. now intros ->.
Qed.

Lemma float_of_int_not_neg (z : Z) (f : float) :
  (0 <= z)%Z -> float_of_int z = Ok f -> (f <? 0)%float = false.
Proof.
  intros Hz. unfold float_of_int.
  pose proof (binary_normalize_not_neg z 0 Hz) as Hc.
  destruct (binary_normalize prec emax z 0 false) eqn:E;
    try discriminate; intros [= <-]; exact (SF2Prim_not_neg _ Hc).
Qed.

Lemma int_of_float_not_neg (f : float) (z : Z) :
  (f <? 0)%float = false -> int_of_float f = Ok z -> (0 <= z)%Z.
Proof.
  rewrite ltb_zero_not_neg, negb_false_iff. unfold int_of_float.
  destruct (Prim2SF f) as [s|s| |[] m e]; simpl; try discriminate;
    intros _ [= <-]; [lia|].
  now apply Z.shiftl_nonneg.
Qed.

Lemma fmul_not_neg (u : float) (q : Z) (t : float) :
  (u <? 0)%float = false -> (0 <= q)%Z -> fmul u (PInt q) = Ok t ->
  (t <? 0)%float = false.
Proof.
  intros Hu Hq (fq & Hfq & [= <-])%bind_Ok.
  apply mul_not_neg; [exact Hu|]. eapply float_of_int_not_neg; eassumption.
Qed.

(** The override writes the same product as the [except] handler. *)
Lemma parse_total_retail_unparsed c u q t :
  py_float c = Raise ValueError \/ py_float c = Raise TypeError ->
  parse_total_retail c u q = Ok t -> fmul u (PInt q) = Ok t.
Proof.
  unfold parse_total_retail.
  intros [-> | ->]; simpl; intros (t0 & Ht0 & H)%bind_Ok;
    (destruct (_ && _); [exact H | congruence]).
Qed.

Lemma parse_total_retail_zero c u q t f :
  py_float c = Ok f -> (f =? 0)%float = true ->
  parse_total_retail c u q = Ok t ->
  if (0 <? u)%float then fmul u (PInt q) = Ok t else t = f.
Proof.
  unfold parse_total_retail. intros -> Hf. simpl. rewrite Hf. simpl.
  destruct (0 <? u)%float; [easy | now intros [= <-]].
Qed.

Lemma parse_total_retail_cases c u q t :
  parse_total_retail c u q = Ok t ->
  fmul u (PInt q) = Ok t \/ py_float c = Ok t.
Proof.
  unfold parse_total_retail. intros (t0 & Ht0 & H)%bind_Ok.
  destruct (_ && _); [now left|]. injection H as <-.
  apply try_value_type_Ok in Ht0 as [H | [_ H]]; auto.
Qed.

(** C2 (amended): for every retained row, when the total-retail cell fails
    to parse as a float the emitted [total_retail] is
    [unit_retail * quantity]; when the cell is absent or parses to exactly 0
    it is [unit_retail * quantity] if [unit_retail > 0], and stays zero
    otherwise. An absent cell with [unit_retail = 10] and [quantity = 3]
    gives 30.0, an explicit 0 with [unit_retail = 5] and [quantity = 2]
    gives 10.0. *)
Theorem total_retail_fallback :
  (forall oid meta ratio col_map row r,
     parse_row oid meta ratio col_map row = Ok (Some r) ->
     let c := get_val col_map row "total_retail" (CInt 0) in
     ((py_float c = Raise ValueError \/ py_float c = Raise TypeError) ->
      fmul (unit_retail r) (PInt (quantity r)) = Ok (total_retail r))
     /\ ((absent col_map row "total_retail" = true
          \/ exists f, py_float c = Ok f /\ (f =? 0)%float = true) ->
         if (0 <? unit_retail r)%float
         then fmul (unit_retail r) (PInt (quantity r)) = Ok (total_retail r)
         else (total_retail r =? 0)%float = true))
  /\ parse_total_retail (CInt 0) 10 3 = Ok 30%float
  /\ parse_total_retail (CFloat 0) 5 2 = Ok 10%float.
Proof.
  split; [|split; reflexivity].
  intros oid meta ratio col_map row r Hrow%parse_row_emits. cbv zeta.
  pose proof (em_total_retail _ _ _ _ _ _ Hrow) as Ht. split.
  - intros Hc. eapply parse_total_retail_unparsed; eassumption.
  - intros Hc.
    assert (exists f, py_float (get_val col_map row "total_retail" (CInt 0)) = Ok f
                      /\ (f =? 0)%float = true) as (f & Hf & Hf0).
    { destruct Hc as [Ha|Hc]; [|exact Hc].
      rewrite (get_val_absent _ _ _ _ Ha). now exists 0%float. }
    pose proof (parse_total_retail_zero _ _ _ _ _ Hf Hf0 Ht) as H.
    destruct (0 <? unit_retail r)%float; [exact H | now rewrite H].
Qed.

(** C5: a row below the header whose product-name field is empty after
    trimming, or is the text [product name] in any letter case after
    trimming, is skipped; no record of a parsed workbook has such a
    [product_name]. *)
Theorem blank_product_name_skipped :
  (forall oid meta ratio col_map row,
     let name := strip (py_str (get_val col_map row "product_name" (CStr ""))) in
     name = "" \/ lower name = "product name" ->
     parse_row oid meta ratio col_map row = Ok None)
  /\ (forall sheets oid meta rows,
        parse_manifest_xlsx (Some sheets) oid meta = Ok rows ->
        Forall (fun r => strip (product_name r) <> ""
                         /\ lower (strip (product_name r)) <> "product name") rows).
Proof.
  split.
  - intros oid meta ratio col_map row name H. apply parse_row_skips.
    fold name. destruct H as [-> | ->]; [reflexivity | apply orb_true_r].
  - intros sheets oid meta rows (ratio & _ & Hrows)%parse_manifest_emitted.
    eapply Forall_impl; [exact Hrows|].
    intros r (col_map & row & Hrow%parse_row_emits).
    pose proof (em_product_name_kept _ _ _ _ _ _ Hrow) as Hk.
    assert (Hs : strip (product_name r) = product_name r).
    { rewrite (em_product_name _ _ _ _ _ _ Hrow). apply strip_idem. }
    rewrite Hs. apply orb_false_iff in Hk as [H1 H2].
    split; intros E; rewrite E in *; discriminate.
Qed.

(** C10 (amended): for every retained row whose UPC cell tests true, take
    the text of the cell, trimmed and with a trailing [.0] removed: when it
    has no digit the emitted [upc] is that text itself, and when it has a
    digit the emitted [upc] is its digits and nothing else. A UPC cell that
    tests false ([None] or no cell at all, [False], 0, 0.0, the empty text,
    a zero duration) is emitted as the empty string, whatever its text. *)
Theorem upc_passthrough oid meta ratio col_map row r :
  parse_row oid meta ratio col_map row = Ok (Some r) ->
  let cell := get_val col_map row "upc" (CStr "") in
  let text := strip_dot0 (strip (py_str cell)) in
  (truthy cell = true ->
   (digits text = "" -> upc r = text)
   /\ (digits text <> "" -> upc r = digits text /\ all_digits (upc r) = true))
  /\ (truthy cell = false -> upc r = "").
Proof.
  intros Hrow%parse_row_emits. cbv zeta.
  rewrite (em_upc _ _ _ _ _ _ Hrow), clean_upc_text_eq. unfold upc_text.
  destruct (truthy (get_val col_map row "upc" (CStr ""))).
  - split; [intros _ | discriminate].
    destruct (String.eqb_spec (digits (strip_dot0
      (strip (py_str (get_val col_map row "upc" (CStr "")))))) "") as [E|E].
    + split; [reflexivity | contradiction].
    + split; [contradiction|]. intros _. split; [reflexivity|].
      apply all_digits_digits.
  - split; [discriminate | reflexivity].
Qed.

(** C7 (amended): the code enforces no lower bound. In every emitted record
    [quantity] is an integer: 1 when the quantity cell is absent, fails to
    parse as a floating value or holds a NaN, and otherwise the value of the
    cell truncated towards zero, whatever its sign. [unit_retail] is 0.0
    when its cell fails to parse and the value of its cell otherwise, and
    [total_retail] is the value of its cell or [unit_retail * quantity]. So
    [quantity >= 0] when the cell's value is not negative, and
    [total_retail] is not negative when [quantity >= 0], [unit_retail] is
    not negative and the total-retail cell does not hold a negative value. *)
Theorem record_sign_bounds oid meta ratio col_map row r :
  parse_row oid meta ratio col_map row = Ok (Some r) ->
  let cq := get_val col_map row "quantity" (CInt 1) in
  let cu := get_val col_map row "unit_retail" (CInt 0) in
  let ct := get_val col_map row "total_retail" (CInt 0) in
  ((absent col_map row "quantity" = true
    \/ py_float cq = Raise ValueError \/ py_float cq = Raise TypeError) ->
   quantity r = 1%Z)
  /\ (forall f, py_float cq = Ok f ->
        int_of_float f = Ok (quantity r)
        \/ (int_of_float f = Raise ValueError /\ quantity r = 1%Z))
  /\ ((py_float cu = Raise ValueError \/ py_float cu = Raise TypeError) ->
      unit_retail r = 0%float)
  /\ (forall f, py_float cq = Ok f -> (f <? 0)%float = false -> (0 <= quantity r)%Z)
  /\ (forall f, py_float cu = Ok f -> unit_retail r = f)
  /\ (py_float ct = Ok (total_retail r)
      \/ fmul (unit_retail r) (PInt (quantity r)) = Ok (total_retail r))
  /\ ((0 <= quantity r)%Z -> (unit_retail r <? 0)%float = false ->
      (forall f, py_float ct = Ok f -> (f <? 0)%float = false) ->
      (total_retail r <? 0)%float = false).
Proof.
  intros Hrow%parse_row_emits. cbv zeta.
  pose proof (em_quantity _ _ _ _ _ _ Hrow) as Hq.
  pose proof (em_unit_retail _ _ _ _ _ _ Hrow) as Hu.
  pose proof (em_total_retail _ _ _ _ _ _ Hrow) as Ht.
  unfold parse_quantity in Hq. unfold parse_unit_retail in Hu.
  split; [|split; [|split; [|split; [|split; [|split]]]]].
  - intros [Ha | [Hc | Hc]].
    + rewrite (get_val_absent _ _ _ _ Ha) in Hq. now injection Hq.
    + rewrite Hc in Hq. now injection Hq.
    + rewrite Hc in Hq. now injection Hq.
  - intros f Hf. rewrite Hf in Hq. simpl in Hq.
    apply try_value_type_Ok in Hq as [Hq | [[Hq | Hq] [= <-]]].
    + now left.
    + right. now split.
    + unfold int_of_float in Hq. now destruct (Prim2SF f).
  - intros [Hc | Hc]; rewrite Hc in Hu; now injection Hu.
  - intros f Hf Hpos. rewrite Hf in Hq. simpl in Hq.
    apply try_value_type_Ok in Hq as [Hq | [_ [= <-]]]; [|lia].
    eapply int_of_float_not_neg; eassumption.
  - intros f Hf. rewrite Hf in Hu. now injection Hu.
  - apply parse_total_retail_cases in Ht as [Ht | Ht]; [now right | now left].
  - intros Hq0 Hu0 Hct.
    apply parse_total_retail_cases in Ht as [Ht | Ht].
    + eapply fmul_not_neg; eassumption.
    + now apply Hct.
Qed.

End FieldFacts.

(** ** Header detection *)

Lemma in_expected_headers_iff (t : string) :
  in_expected_headers t = true <-> t ∈ EXPECTED_HEADERS.
Proof.
  unfold in_expected_headers. rewrite existsb_exists, list_elem_of_In. split.
  - intros (h & Hin & ->%String.eqb_eq). exact Hin.
  - intros Hin. exists t. split; [exact Hin | apply String.eqb_refl].
Qed.

Section HeaderScan.

Context {FT : FloatText}.

(** The scan stops at the first row that passes [is_header_row]. *)
Lemma find_header_from_spec (sheet : Sheet) :
  forall i,
  match find_header_from i sheet with
  | (Some header_row, idx) =>
      exists j row,
        idx = (i + j)%nat /\ sheet !! j = Some row
        /\ is_header_row row = true /\ header_row = header_cells row
        /\ forall j' row', (j' < j)%nat -> sheet !! j' = Some row' ->
                           is_header_row row' = false
  | (None, idx) => idx = 0%nat /\ Forall (fun row => is_header_row row = false) sheet
  end.
Proof.
  induction sheet as [|row sheet IH]; intros i; simpl; [easy|].
  destruct (is_header_row row) eqn:Hrow.
  - exists 0%nat, row. repeat split; auto with lia.
  - specialize (IH (S i)).
    destruct (find_header_from (S i) sheet) as [[header_row|] idx].
    + destruct IH as (j & row' & -> & Hj & Hh & Hc & Hbefore).
      exists (S j), row'. repeat split; auto with lia.
      intros [|j'] row'' Hlt; simpl.
      * now intros [= <-].
      * apply Hbefore. lia.
    + destruct IH as [-> Hall]. split; [reflexivity | now constructor].
Qed.

Lemma is_header_row_iff (row : Row) :
  is_header_row row = true <->
  exists c, c ∈ row /\ truthy c = true /\ is_header_cell c = true.
Proof.
  unfold is_header_row. rewrite andb_true_iff, existsb_exists. split.
  - intros [_ (c & Hin & [Ht Hh]%andb_prop)]. exists c.
    now rewrite list_elem_of_In.
  - intros (c & Hin & Ht & Hh). split.
    + destruct row; [inversion Hin | reflexivity].
    + exists c. rewrite <- list_elem_of_In. now rewrite Ht, Hh.
Qed.

Lemma header_cells_not_nil (row : Row) :
  is_header_row row = true -> header_cells row <> [].
Proof. unfold is_header_row. now destruct row. Qed.

End HeaderScan.

(** The text of a cell that tests false is never a header name, so the
    filter [if cell] of the scan drops no match. *)
Lemma falsy_not_header (c : Cell) :
  truthy c = false -> is_header_cell c = false.
Proof.
  destruct c as [|[]|z|f|s|s|]; simpl; try discriminate; try reflexivity.
  - intros ->%negb_false_iff%Z.eqb_eq. reflexivity.
  - rewrite negb_false_iff, eqb_zero_is_zero.
    unfold is_header_cell, py_str, repr_float, py_float_text,
      PyFloatText.text_of_float.
    now destruct (Prim2SF f) as [[]|[]| |[] m e].
  - intros ->%negb_false_iff%String.eqb_eq. reflexivity.
Qed.

Lemma is_header_row_qualifies (row : Row) :
  is_header_row row = true <-> qualifies row.
Proof.
  rewrite is_header_row_iff. unfold qualifies. split.
  - intros (c & Hin & Ht & Hh). exists c. repeat split; [exact Hin | |].
    + now intros ->.
    + now apply in_expected_headers_iff.
  - intros (c & Hin & _ & Hh). exists c. apply in_expected_headers_iff in Hh.
    repeat split; [exact Hin | | exact Hh].
    destruct (truthy c) eqn:Ht; [reflexivity|].
    apply falsy_not_header in Ht. unfold is_header_cell in Ht. congruence.
Qed.

(** C3: in every sheet the header row is the first row, from the top, that
    has a non-null cell whose trimmed, lowercased text is one of the ten
    canonical header names; the data rows are the rows strictly below it,
    and each appended record comes from one of them; a sheet with no such
    row adds no record and raises nothing. *)
Theorem header_row_is_first_match (sheet : Sheet) (oid : string)
    (meta : OrderMeta) (ratio : num) (rows : list ManifestRecord) :
  match find_header sheet with
  | (Some header_row, i) =>
      (exists row, sheet !! i = Some row /\ qualifies row
                   /\ header_row = header_cells row)
      /\ (forall j row, (j < i)%nat -> sheet !! j = Some row -> ~ qualifies row)
      /\ parse_sheet oid meta ratio sheet rows
         = parse_rows oid meta ratio (build_col_map header_row)
             (drop (S i) sheet) rows
      /\ (forall out, parse_sheet oid meta ratio sheet rows = Ok out ->
          exists new,
            out = (rows ++ new)%list
            /\ Forall (fun r => exists j row,
                         (i < j)%nat /\ sheet !! j = Some row
                         /\ parse_row oid meta ratio (build_col_map header_row) row
                            = Ok (Some r)) new)
  | (None, _) =>
      (forall row, row ∈ sheet -> ~ qualifies row)
      /\ parse_sheet oid meta ratio sheet rows = Ok rows
  end.
Proof.
  pose proof (find_header_from_spec sheet 0) as H. unfold find_header.
  destruct (find_header_from 0 sheet) as [[header_row|] i] eqn:E.
  - destruct H as (j & row & -> & Hj & Hh & -> & Hbefore). simpl.
    assert (Heq : parse_sheet oid meta ratio sheet rows
                  = parse_rows oid meta ratio (build_col_map (header_cells row))
                      (drop (S j) sheet) rows).
    { unfold parse_sheet, find_header. rewrite E.
      destruct sheet as [|row0 sheet]; [discriminate|].
      pose proof (header_cells_not_nil _ Hh).
      now destruct (header_cells row). }
    repeat split.
    + exists row. repeat split; [exact Hj|]. now apply is_header_row_qualifies.
    + intros j' row' Hlt Hj' Hq%is_header_row_qualifies.
      rewrite (Hbefore _ _ Hlt Hj') in Hq. discriminate.
    + exact Heq.
    + intros out Hout. rewrite Heq in Hout.
      apply parse_rows_from in Hout as (new & -> & Hnew).
      exists new. split; [reflexivity|].
      eapply Forall_impl; [exact Hnew|].
      intros r (k & row' & Hk & Hr). exists (S j + k)%nat, row'.
      rewrite lookup_drop in Hk. repeat split; [lia | exact Hk | exact Hr].
  - destruct H as [_ Hall]. split.
    + intros row Hin Hq%is_header_row_qualifies.
      rewrite Forall_forall in Hall. rewrite (Hall _ Hin) in Hq. discriminate.
    + unfold parse_sheet, find_header. rewrite E. now destruct sheet.
Qed.

(** ** Brands of an order item *)

Lemma fold_insert_other (b : string) (pids : list string) :
  forall (m : gmap string string) (pid : string),
  pid ∉ pids ->
  fold_left (fun m p => <[p := b]> m) pids m !! pid = m !! pid.
Proof.
  induction pids as [|p pids IH]; intros m pid Hnot; simpl; [reflexivity|].
  apply not_elem_of_cons in Hnot as [Hne Hnot].
  rewrite IH by exact Hnot. now apply lookup_insert_ne.
Qed.

Lemma fold_insert_member (b : string) (pids : list string) :
  forall (m : gmap string string) (pid : string),
  pid ∈ pids ->
  fold_left (fun m p => <[p := b]> m) pids m !! pid = Some b.
Proof.
  induction pids as [|p pids IH]; intros m pid Hin; simpl; [inversion Hin|].
  destruct (decide (pid ∈ pids)) as [Hp|Hp]; [now apply IH|].
  apply elem_of_cons in Hin as [->|Hin]; [|contradiction].
  rewrite fold_insert_other by exact Hp. apply lookup_insert_eq.
Qed.

Lemma add_item_brands_member (m : gmap string string) (item : Item) (pid : string) :
  pid ∈ pallet_ids item ->
  add_item_brands m item !! pid = Some (brands_of_title (title item)).
Proof. apply fold_insert_member. Qed.

Lemma add_items_other (items : list Item) :
  forall (m : gmap string string) (pid : string),
  (forall it, it ∈ items -> pid ∉ pallet_ids it) ->
  fold_left add_item_brands items m !! pid = m !! pid.
Proof.
  induction items as [|it items IH]; intros m pid Hnot; simpl; [reflexivity|].
  rewrite IH.
  - apply fold_insert_other, Hnot. now left.
  - intros it' Hin. apply Hnot. now right.
Qed.

(** C6: the brand string of a title is the second of its [" - "]-separated
    parts when there are at least three parts and the empty string
    otherwise; an item attaches it to each of its pallet ids, and it is what
    the order's map holds for a pallet id that no later item of the order
    lists again. The title of the example yields [iRobot, BISSELL, Shark]. *)
Theorem brands_of_item :
  (forall t,
     brands_of_title t
     = match split " - " t with
       | _ :: brands :: _ :: _ => brands
       | _ => ""
       end)
  /\ brands_of_title
       "Vacuums & Floorcare - iRobot, BISSELL, Shark - Orig. Retail $28,292"
     = "iRobot, BISSELL, Shark"
  /\ (forall (m : gmap string string) item pid,
        pid ∈ pallet_ids item ->
        add_item_brands m item !! pid = Some (brands_of_title (title item)))
  /\ (forall before item after pid,
        pid ∈ pallet_ids item ->
        (forall it, it ∈ after -> pid ∉ pallet_ids it) ->
        pallet_brands_of (before ++ item :: after)%list !! pid
        = Some (brands_of_title (title item))).
Proof.
  repeat split.
  - intros t. unfold brands_of_title.
    now destruct (split " - " t) as [|a [|b [|c l]]].
  - apply add_item_brands_member.
  - intros before item after pid Hin Hafter. unfold pallet_brands_of.
    rewrite fold_left_app. simpl. rewrite add_items_other by exact Hafter.
    now apply add_item_brands_member.
Qed.

(** ** Order identifiers *)

Lemma prefix_has_char (c : ascii) (old : string) :
  forall s, String.prefix old s = true -> has_char c old = true ->
            has_char c s = true.
Proof.
  induction old as [|d old IH]; intros s Hp Hc; [discriminate|].
  destruct s as [|e s]; [discriminate|]. simpl in Hp.
  destruct (ascii_dec d e) as [<-|]; [|discriminate].
  simpl in *. apply orb_prop in Hc as [Hc|Hc]; rewrite ?Hc; [reflexivity|].
  rewrite (IH _ Hp Hc). apply orb_true_r.
Qed.

(** Replacing [old] changes nothing in a string that lacks one of the
    characters of [old]. *)
Lemma replace_without_char (c : ascii) (old new : string) (s : string) :
  has_char c old = true -> has_char c s = false -> replace old new s = s.
Proof.
  intros Hold. unfold replace.
  induction s as [|d s IH]; [reflexivity|].
  intros Hs. cbn [replace_go].
  destruct (String.prefix old (String d s)) eqn:Hp.
  - apply (prefix_has_char c) in Hp; [congruence | exact Hold].
  - simpl in Hs. apply orb_false_iff in Hs as [_ Hs]. now rewrite IH.
Qed.

Lemma prefix_append (p rest : string) : String.prefix p (p +:+ rest) = true.
Proof.
  induction p as [|c p IH]; simpl; [now destruct rest|].
  now destruct (ascii_dec c c).
Qed.

Lemma replace_go_skip (old new : string) (p rest : string) :
  replace_go old new (String.length p) (p +:+ rest) = replace_go old new 0 rest.
Proof.
  induction p as [|c p IH]; simpl; [reflexivity | exact IH].
Qed.

(** An occurrence at the start is replaced, and the scan resumes after it. *)
Lemma replace_at_start (c : ascii) (old' new rest : string) :
  replace (String c old') new (String c old' +:+ rest)
  = new +:+ replace (String c old') new rest.
Proof.
  unfold replace. pose proof (prefix_append (String c old') rest) as Hp.
  change (String c old' +:+ rest) with (String c (old' +:+ rest)) in *.
  cbn [replace_go]. rewrite Hp.
  cbn [String.length Nat.sub]. rewrite Nat.sub_0_r.
  now rewrite replace_go_skip.
Qed.

Lemma has_char_append (c : ascii) (s t : string) :
  has_char c (s +:+ t) = has_char c s || has_char c t.
Proof.
  induction s as [|d s IH]; simpl; [reflexivity|]. now rewrite IH, orb_assoc.
Qed.

Lemma append_nil_r (s : string) : s +:+ "" = s.
Proof.
  induction s as [|c s IH]; [reflexivity|].
  change (String c s +:+ "") with (String c (s +:+ "")). now rewrite IH.
Qed.

Lemma replace_suffix_only (c : ascii) (suf' : string) (s : string) :
  has_char c s = false ->
  replace (String c suf') "" (s +:+ String c suf') = s.
Proof.
  induction s as [|d s IH]; intros Hs.
  - change ("" +:+ String c suf') with (String c suf').
    rewrite <- (append_nil_r (String c suf')) at 2.
    rewrite replace_at_start. reflexivity.
  - simpl in Hs. apply orb_false_iff in Hs as [Hd Hs].
    change (String d s +:+ String c suf') with (String d (s +:+ String c suf')).
    unfold replace in *. cbn [replace_go String.prefix].
    destruct (ascii_dec c d) as [->|_].
    + now rewrite Ascii.eqb_refl in Hd.
    + now rewrite IH.
Qed.

(** X1: for an order id without [_] and without [.], the two replacements
    strip the prefix and the suffix and nothing else. *)
Lemma order_id_of_plain_filename (oid : string) :
  has_char "_" oid = false -> has_char "." oid = false ->
  order_id_of_filename ("order_manifest_" +:+ oid +:+ ".xlsx") = oid.
Proof.
  intros Hu Hd. unfold order_id_of_filename.
  rewrite (replace_at_start "o" "rder_manifest_" "" (oid +:+ ".xlsx")).
  change ("" +:+ ?x) with x.
  rewrite (replace_without_char "_" "order_manifest_" "" (oid +:+ ".xlsx")).
  - now apply replace_suffix_only.
  - reflexivity.
  - rewrite has_char_append, Hu. reflexivity.
Qed.

(** ** The upsert loop *)

Lemma upsert_step_counts (st : LoopState) (a : Attempt) :
  errors (upsert_step st a) = (errors st + if both_failed a then 1 else 0)%Z
  /\ inserted (upsert_step st a)
     = (inserted st + if both_failed a then 0 else 1)%Z.
Proof.
  unfold upsert_step, both_failed.
  destruct (first_ok a), (retry_ok a); simpl; lia.
Qed.

Lemma fold_upsert_counts (batch : list Attempt) :
  forall st,
  errors (fold_left upsert_step batch st)
  = (errors st + Z.of_nat (length (List.filter both_failed batch)))%Z
  /\ inserted (fold_left upsert_step batch st)
     = (inserted st
        + Z.of_nat (length (List.filter (fun a => negb (both_failed a)) batch)))%Z.
Proof.
  induction batch as [|a batch IH]; intros st; simpl; [lia|].
  destruct (IH (upsert_step st a)) as [-> ->].
  destruct (upsert_step_counts st a) as [-> ->].
  destruct (both_failed a); simpl; lia.
Qed.

(** X2: the counters at the end of the loop: one error per record whose two
    attempts both failed, one insert per other record, and no record is left
    out. *)
Lemma upsert_loop_counts (batch : list Attempt) :
  errors (upsert_loop batch)
  = Z.of_nat (length (List.filter both_failed batch))
  /\ inserted (upsert_loop batch)
     = Z.of_nat (length (List.filter (fun a => negb (both_failed a)) batch))
  /\ (inserted (upsert_loop batch) + errors (upsert_loop batch))%Z
     = Z.of_nat (length batch).
Proof.
  unfold upsert_loop.
  destruct (fold_upsert_counts batch
              {| pending := []; inserted := 0; errors := 0 |}) as [He Hi].
  rewrite He, Hi. simpl. repeat split.
  pose proof (List.filter_length both_failed batch). lia.
Qed.

(** What the open transaction holds after a record whose first attempt
    failed: that record if its retry went through, and nothing of what came
    before it. *)
Lemma upsert_step_after_failure (st : LoopState) (a : Attempt) :
  first_ok a = false ->
  pending (upsert_step st a) = if retry_ok a then [att_row a] else [].
Proof. unfold upsert_step. intros ->. now destruct (retry_ok a). Qed.

Lemma fold_upsert_all_ok (batch : list Attempt) :
  forall st,
  Forall (fun a => first_ok a = true) batch ->
  pending (fold_left upsert_step batch st)
  = (pending st ++ map att_row batch)%list.
Proof.
  induction batch as [|a batch IH]; intros st Hall; simpl.
  - now rewrite app_nil_r.
  - inversion Hall as [|? ? Ha Hall']; subst.
    rewrite IH by exact Hall'. unfold upsert_step. rewrite Ha. simpl.
    now rewrite <- app_assoc.
Qed.

(** X3: the rows that reach the commit are those from the last failed first
    attempt on: every upsert made before it is lost with the rollback. *)
Lemma upsert_loop_after_last_failure (before after : list Attempt) (a : Attempt) :
  first_ok a = false ->
  Forall (fun a' => first_ok a' = true) after ->
  pending (upsert_loop (before ++ a :: after)%list)
  = ((if retry_ok a then [att_row a] else []) ++ map att_row after)%list.
Proof.
  intros Ha Hafter. unfold upsert_loop. rewrite fold_left_app. simpl.
  rewrite fold_upsert_all_ok by exact Hafter.
  now rewrite upsert_step_after_failure.
Qed.

(** ** Splitting a title *)

Lemma append_cons (c : ascii) (s t : string) :
  String c s +:+ t = String c (s +:+ t).
Proof. reflexivity. Qed.

Lemma append_assoc (s t u : string) : (s +:+ t) +:+ u = s +:+ t +:+ u.
Proof.
  induction s as [|c s IH]; [reflexivity|]. rewrite !append_cons. now rewrite IH.
Qed.

Lemma length_append (s t : string) :
  String.length (s +:+ t) = (String.length s + String.length t)%nat.
Proof.
  induction s as [|c s IH]; [reflexivity|]. rewrite append_cons. simpl.
  now rewrite IH.
Qed.

Lemma prefix_split (p : string) :
  forall s, String.prefix p s = true -> exists rest, s = p +:+ rest.
Proof.
  induction p as [|c p IH]; intros s Hp; [now exists s|].
  destruct s as [|d s]; [discriminate|]. simpl in Hp.
  destruct (ascii_dec c d) as [<-|]; [|discriminate].
  destruct (IH _ Hp) as [rest ->]. now exists rest.
Qed.

Lemma split_go_skip (sep cur p rest : string) :
  split_go sep (String.length p) cur (p +:+ rest) = split_go sep 0 cur rest.
Proof.
  induction p as [|c p IH]; [reflexivity|]. rewrite append_cons. exact IH.
Qed.

Lemma split_go_not_nil (sep : string) (s : string) :
  forall skip cur, split_go sep skip cur s <> [].
Proof.
  induction s as [|c s IH]; intros skip cur; cbn [split_go]; [discriminate|].
  destruct skip; [|apply IH]. destruct (String.prefix sep (String c s));
    [discriminate | apply IH].
Qed.

Lemma join_cons (sep x : string) (parts : list string) :
  parts <> [] -> join sep (x :: parts) = x +:+ sep +:+ join sep parts.
Proof. now destruct parts. Qed.

Lemma join_split_go (sep : string) (n : nat) :
  sep <> "" ->
  forall s cur, (String.length s <= n)%nat ->
  join sep (split_go sep 0 cur s) = cur +:+ s.
Proof.
  intros Hsep. induction n as [|n IH]; intros s cur Hlen.
  - destruct s; [|simpl in Hlen; lia]. simpl. now rewrite append_nil_r.
  - destruct s as [|c s]; [simpl; now rewrite append_nil_r|].
    cbn [split_go]. destruct (String.prefix sep (String c s)) eqn:Hp.
    + destruct sep as [|d sep']; [contradiction|].
      apply prefix_split in Hp as [rest Hrest]. rewrite append_cons in Hrest.
      injection Hrest as -> ->.
      cbn [String.length Nat.sub]. rewrite Nat.sub_0_r, split_go_skip.
      rewrite join_cons by apply split_go_not_nil.
      rewrite IH.
      * reflexivity.
      * simpl in Hlen. rewrite length_append in Hlen. lia.
    + rewrite IH by (simpl in Hlen; lia). now rewrite append_assoc.
Qed.

(** Joining the parts of a split with the separator gives the string back. *)
Lemma join_split (sep s : string) : sep <> "" -> join sep (split sep s) = s.
Proof.
  intros Hsep. unfold split.
  now rewrite (join_split_go sep (String.length s) Hsep s "" (le_n _)).
Qed.

(** * Examples and counterexamples *)

Example sample_find_header :
  find_header sample_sheet = (Some (header_cells sample_header), 1%nat).
Proof. reflexivity. Qed.

Example sample_parse :
  parse_manifest_xlsx (Some [sample_sheet]) "123" sample_meta
  = Ok [vacuum_record; mop_record].
Proof. vm_compute. reflexivity. Qed.

Example vacuum_parse :
  parse_row "123" sample_meta (PFloat 0.25) sample_col_map vacuum_row
  = Ok (Some vacuum_record).
Proof. vm_compute. reflexivity. Qed.

Example mop_parse :
  parse_row "123" sample_meta (PFloat 0.25) sample_col_map mop_row
  = Ok (Some mop_record).
Proof. vm_compute. reflexivity. Qed.

(** C1 (witness): the sample order has [total_msrp = 2000.0 > 0]; its two
    records carry [unit_retail * 0.25]. *)
Lemma cogs_allocation_witness :
  exists ratio,
    truediv (total_cost sample_meta) (total_msrp sample_meta) = Ok ratio
    /\ Forall (fun r => allocated_cogs_per_unit r = (unit_retail r * ratio)%float)
         [vacuum_record; mop_record].
Proof.
  apply (proj1 (cogs_allocation [sample_sheet] "123" sample_meta)).
  - reflexivity.
  - vm_compute. reflexivity.
Defined.

(** C1 (counterexample): with the default meta ([total_msrp = 0]) a row
    whose retail cell is the text [nan] or [inf] gets an allocation that is
    a NaN, which does not compare equal to 0. *)
Lemma cogs_allocation_not_zero :
  eq0 (total_msrp default_meta) = true
  /\ res_map (map (fun r => (allocated_cogs_per_unit r =? 0)%float))
       (parse_manifest_xlsx
          (Some [[sample_header; nan_retail_row; inf_retail_row]])
          "123" default_meta)
     = Ok [false; false].
Proof. split; vm_compute; reflexivity. Qed.

(** C2 (witness): the vacuum row has no total-retail value and
    [unit_retail = 10 > 0]. *)
Lemma total_retail_fallback_witness :
  fmul (unit_retail vacuum_record) (PInt (quantity vacuum_record))
  = Ok (total_retail vacuum_record).
Proof.
  exact (proj2 (proj1 total_retail_fallback _ _ _ _ _ _ vacuum_parse)
               (or_introl eq_refl)).
Defined.

(** C2 (counterexample): an absent total-retail cell with
    [unit_retail = -5] and [quantity = 3] gives [total_retail = 0.0], not
    [-15.0]. *)
Lemma total_retail_absent_negative :
  absent sample_col_map negative_retail_row "total_retail" = true
  /\ res_map (option_map (fun r => (quantity r, unit_retail r, total_retail r)))
       (parse_row "123" sample_meta (PFloat 0.25) sample_col_map
          negative_retail_row)
     = Ok (Some (3%Z, (-5)%float, 0%float))
  /\ fmul (-5) (PInt 3) = Ok (-15)%float.
Proof. repeat split; vm_compute; reflexivity. Qed.

(** C5 (witness): the row whose product name is blank is skipped. *)
Lemma blank_product_name_witness :
  parse_row "123" sample_meta (PFloat 0.25) sample_col_map blank_name_row
  = Ok None.
Proof.
  apply (proj1 blank_product_name_skipped). left. reflexivity.
Defined.

(** C10 (witness): the text [N/A] has no digit and is emitted as it is. *)
Lemma upc_passthrough_witness : upc mop_record = "N/A".
Proof.
  apply (proj1 (upc_passthrough _ _ _ _ _ _ mop_parse)); reflexivity.
Defined.

(** C10 (counterexample): UPC cells that test false. The text of [False]
    has no digit, the texts of 0 and 0.0 are the digit [0] once trimmed and
    without a trailing [.0]; the three rows are retained and emitted with an
    empty [upc], not with [False], [0] and [0]. *)
Lemma falsy_upc_cell_emptied :
  map (fun c => strip_dot0 (strip (py_str c))) [CBool false; CInt 0; CFloat 0]
  = ["False"; "0"; "0"]
  /\ map digits ["False"; "0"; "0"] = [""; "0"; "0"]
  /\ res_map (map upc)
       (parse_manifest_xlsx
          (Some [[sample_header; falsy_upc_row (CBool false);
                  falsy_upc_row (CInt 0); falsy_upc_row (CFloat 0)]])
          "123" sample_meta)
     = Ok [""; ""; ""].
Proof. repeat split; vm_compute; reflexivity. Qed.

(** C7 (witness): the quantity cell of the vacuum row holds 3, and the
    record carries it. *)
Lemma record_sign_bounds_witness :
  int_of_float 3 = Ok (quantity vacuum_record)
  \/ (int_of_float 3 = Raise ValueError /\ quantity vacuum_record = 1%Z).
Proof.
  apply (proj1 (proj2 (record_sign_bounds _ _ _ _ _ _ vacuum_parse)) 3%float).
  reflexivity.
Defined.

(** C7 (counterexample): negative cells go through: the record has
    [quantity = -3], [unit_retail = -5.0] and [total_retail = -7.0]. *)
Lemma negative_cells_emitted :
  res_map (map (fun r => (quantity r, unit_retail r, total_retail r)))
    (parse_manifest_xlsx (Some [[sample_header; negative_row]]) "123" sample_meta)
  = Ok [((-3)%Z, (-5)%float, (-7)%float)].
Proof. vm_compute. reflexivity. Qed.

(** C6 (witness): the pallet ids of the vacuum item keep its brands when a
    later item lists other ids. *)
Lemma brands_of_item_witness :
  pallet_brands_of [untitled_item; vacuum_item; untitled_item] !! "P2"
  = Some "iRobot, BISSELL, Shark".
Proof.
  apply (proj2 (proj2 (proj2 brands_of_item)) [untitled_item] vacuum_item
           [untitled_item] "P2").
  - apply list_elem_of_In. simpl. auto.
  - intros it ->%list_elem_of_singleton. rewrite list_elem_of_In. simpl.
    intros [H|[]]. discriminate.
Defined.

Example untitled_item_brands : brands_of_title (title untitled_item) = "".
Proof. reflexivity. Qed.

(** C8 (failing input): the two [replace] calls remove every occurrence of
    the prefix and of the suffix, not only the leading and the trailing one.
    The file [order_manifest_12.xlsx.xlsx] matches the pattern with the
    order id [12.xlsx], and its records get the order id [12]; so does what
    lies between a doubled prefix and the suffix. *)
Theorem order_id_of_doubled_extension :
  order_id_of_filename "order_manifest_12.xlsx.xlsx" = "12"
  /\ res_map (map order_id)
       (parse_files ∅ [("order_manifest_12.xlsx.xlsx", Some [sample_sheet])] [])
     = Ok ["12"; "12"]
  /\ order_id_of_filename "order_manifest_order_manifest_12.xlsx" = "12".
Proof. repeat split; vm_compute; reflexivity. Qed.

Example order_id_of_usual_filename :
  order_id_of_filename "order_manifest_483920.xlsx" = "483920".
Proof. now apply (order_id_of_plain_filename "483920"). Defined.

(** C9 (failing input): the sink takes the first row and refuses the second
    one once. The rollback that precedes the retry drops the open
    transaction, the upsert of the first row with it: the loop ends with
    2 rows counted as inserted and no error, and the commit writes the second
    row alone. *)
Theorem rollback_drops_earlier_rows :
  upsert_loop sample_batch
  = {| pending := [mop_record]; inserted := 2; errors := 0 |}
  /\ commit [] (upsert_loop sample_batch) = [mop_record].
Proof. split; reflexivity. Qed.

(** * Further properties *)

(** ** The upsert loop, continued *)

(** X3 (witness): in the sample batch the second row fails once. *)
Lemma upsert_loop_after_last_failure_witness :
  pending (upsert_loop sample_batch) = [mop_record].
Proof.
  apply (upsert_loop_after_last_failure
           [ {| att_row := vacuum_record; first_ok := true; retry_ok := true |} ]
           []
           {| att_row := mop_record; first_ok := false; retry_ok := true |}).
  - reflexivity.
  - constructor.
Defined.

(** X4: when no first attempt fails, every row of the batch reaches the
    commit, in the order of the batch, and the counters are the size of the
    batch and zero. *)
Theorem upsert_loop_no_failure (batch : list Attempt) :
  Forall (fun a => first_ok a = true) batch ->
  pending (upsert_loop batch) = map att_row batch
  /\ inserted (upsert_loop batch) = Z.of_nat (length batch)
  /\ errors (upsert_loop batch) = 0%Z.
Proof.
  intros Hall. split.
  - unfold upsert_loop. now rewrite fold_upsert_all_ok.
  - unfold upsert_loop.
    destruct (fold_upsert_counts batch
                {| pending := []; inserted := 0; errors := 0 |}) as [-> ->].
    assert (Hnone : List.filter both_failed batch = []).
    { induction Hall as [|a l Ha _ IH]; [reflexivity|]. simpl.
      unfold both_failed at 1. now rewrite Ha. }
    pose proof (List.filter_length both_failed batch) as Hlen.
    rewrite Hnone in *. simpl in *. lia.
Qed.

Lemma upsert_loop_no_failure_witness :
  pending (upsert_loop
             [ {| att_row := vacuum_record; first_ok := true; retry_ok := false |};
               {| att_row := mop_record; first_ok := true; retry_ok := true |} ])
  = [vacuum_record; mop_record].
Proof.
  apply upsert_loop_no_failure. repeat constructor.
Defined.

(** ** The table under upserts *)

Lemma same_key_iff (a b : ManifestRecord) :
  same_key a b = true <-> identity_tuple a = identity_tuple b.
Proof.
  unfold same_key, identity_tuple. rewrite !andb_true_iff, !String.eqb_eq.
  split; [intros [[[-> ->] ->] ->]; reflexivity | intros [= -> -> -> ->]; auto].
Qed.

Lemma same_key_refl (a : ManifestRecord) : same_key a a = true.
Proof. now apply same_key_iff. Qed.

Lemma identity_tuple_updated_by (r old : ManifestRecord) :
  identity_tuple (updated_by r old) = identity_tuple old.
Proof. unfold updated_by. now destruct (same_key r old). Qed.

Lemma listing_title_updated_by (r old : ManifestRecord) :
  listing_title (updated_by r old) = listing_title old.
Proof. unfold updated_by. now destruct (same_key r old). Qed.

Lemma same_key_congr (r a b : ManifestRecord) :
  identity_tuple a = identity_tuple b -> same_key r a = same_key r b.
Proof.
  intros H. destruct (same_key r b) eqn:Hb.
  - apply same_key_iff. apply same_key_iff in Hb. congruence.
  - destruct (same_key r a) eqn:Ha; [|reflexivity].
    apply same_key_iff in Ha. rewrite H in Ha. apply same_key_iff in Ha. congruence.
Qed.

Lemma do_update_self (r : ManifestRecord) : do_update r r = r.
Proof. now destruct r. Qed.

(** [do_update] reads the identity tuple and the title of the stored row and
    nothing else of it. *)
Lemma do_update_congr (a b r : ManifestRecord) :
  identity_tuple a = identity_tuple b -> listing_title a = listing_title b ->
  do_update a r = do_update b r.
Proof.
  unfold identity_tuple, do_update. intros [= -> -> -> ->] ->. reflexivity.
Qed.

Lemma upsert_eq (table : list ManifestRecord) (r : ManifestRecord) :
  upsert table r
  = (map (updated_by r) table
     ++ if existsb (same_key r) table then [] else [r])%list.
Proof.
  unfold upsert. destruct (existsb (same_key r) table) eqn:E.
  - now rewrite app_nil_r.
  - f_equal. symmetry. rewrite <- (map_id table) at 2. apply map_ext_in.
    intros old Hin. unfold updated_by.
    destruct (same_key r old) eqn:Hk; [|reflexivity].
    assert (existsb (same_key r) table = true) by (apply existsb_exists; eauto).
    congruence.
Qed.

Lemma existsb_same_key_map (r r' : ManifestRecord) (table : list ManifestRecord) :
  existsb (same_key r) (map (updated_by r') table) = existsb (same_key r) table.
Proof.
  induction table as [|old table IH]; [reflexivity|]. simpl. rewrite IH.
  f_equal. apply same_key_congr, identity_tuple_updated_by.
Qed.

Lemma existsb_same_key_upsert (r r' : ManifestRecord) (table : list ManifestRecord) :
  existsb (same_key r) table = true ->
  existsb (same_key r) (upsert table r') = true.
Proof.
  intros H. rewrite upsert_eq, existsb_app, existsb_same_key_map, H. reflexivity.
Qed.

Lemma existsb_same_key_upsert_self (r : ManifestRecord) (table : list ManifestRecord) :
  existsb (same_key r) (upsert table r) = true.
Proof.
  rewrite upsert_eq, existsb_app, existsb_same_key_map.
  destruct (existsb (same_key r) table); [reflexivity|].
  simpl. now rewrite same_key_refl.
Qed.

(** X5: an upsert leaves the identity tuple and the [listing_title] of every
    stored row as they are (the [DO UPDATE] list does not name
    [listing_title]) and adds one row, at the end, only when no stored row has
    the identity tuple of the new one. *)
Theorem upsert_keeps_stored_rows (table : list ManifestRecord) (r : ManifestRecord) :
  let added := if existsb (same_key r) table then [] else [r] in
  map identity_tuple (upsert table r)
  = (map identity_tuple table ++ map identity_tuple added)%list
  /\ map listing_title (upsert table r)
     = (map listing_title table ++ map listing_title added)%list
  /\ length (upsert table r) = (length table + length added)%nat.
Proof.
  cbv zeta. rewrite upsert_eq. rewrite !map_app, !map_map, length_app, length_map.
  repeat split; f_equal; apply map_ext; intros old.
  - apply identity_tuple_updated_by.
  - apply listing_title_updated_by.
Qed.

Lemma upsert_identity_tuples (table : list ManifestRecord) (r : ManifestRecord) :
  map identity_tuple (upsert table r)
  = (map identity_tuple table
     ++ map identity_tuple (if existsb (same_key r) table then [] else [r]))%list.
Proof.
  rewrite upsert_eq, map_app, map_map. f_equal. apply map_ext.
  intros old. apply identity_tuple_updated_by.
Qed.

(** X6: the identity tuples of the table stay pairwise distinct under an
    upsert, as the [UNIQUE] constraint of the table demands. *)
Theorem upsert_keeps_keys_unique (table : list ManifestRecord) (r : ManifestRecord) :
  NoDup (map identity_tuple table) ->
  NoDup (map identity_tuple (upsert table r)).
Proof.
  intros Hnd. rewrite upsert_identity_tuples.
  destruct (existsb (same_key r) table) eqn:E; simpl.
  - now rewrite app_nil_r.
  - apply NoDup_app. repeat split; [exact Hnd | | apply NoDup_singleton].
    intros k Hk ->%list_elem_of_singleton.
    apply list_elem_of_fmap in Hk as (old & Hkey & Hin).
    assert (existsb (same_key r) table = true); [|congruence].
    apply existsb_exists. exists old. split; [now apply list_elem_of_In|].
    now apply same_key_iff.
Qed.

Lemma upsert_keeps_keys_unique_witness :
  NoDup (map identity_tuple (upsert [vacuum_record] mop_record)).
Proof.
  apply upsert_keeps_keys_unique. apply NoDup_singleton.
Defined.

Lemma identity_tuple_updated_by_all (rs : list ManifestRecord) :
  forall old, identity_tuple (updated_by_all rs old) = identity_tuple old.
Proof.
  induction rs as [|r rs IH]; intros old; [reflexivity|].
  unfold updated_by_all in *. simpl. rewrite IH. apply identity_tuple_updated_by.
Qed.

Lemma listing_title_updated_by_all (rs : list ManifestRecord) :
  forall old, listing_title (updated_by_all rs old) = listing_title old.
Proof.
  induction rs as [|r rs IH]; intros old; [reflexivity|].
  unfold updated_by_all in *. simpl. rewrite IH. apply listing_title_updated_by.
Qed.

Lemma updated_by_all_snoc (rs : list ManifestRecord) (r old : ManifestRecord) :
  updated_by_all (rs ++ [r]) old = updated_by r (updated_by_all rs old).
Proof. unfold updated_by_all. now rewrite fold_left_app. Qed.

(** When every row of [rs] has its identity tuple in the table, the upserts
    of [rs] only update the stored rows. *)
Lemma fold_upsert_present (rs : list ManifestRecord) :
  forall table,
  Forall (fun r => existsb (same_key r) table = true) rs ->
  fold_left upsert rs table = map (updated_by_all rs) table.
Proof.
  induction rs as [|r rs IH]; intros table Hall; simpl.
  - unfold updated_by_all. simpl. now rewrite map_id.
  - inversion Hall as [|? ? Hr Hrs]; subst.
    rewrite upsert_eq, Hr, app_nil_r. rewrite IH.
    + rewrite map_map. reflexivity.
    + eapply Forall_impl; [exact Hrs|]. intros r' Hr'. simpl in Hr'.
      now rewrite existsb_same_key_map.
Qed.

Lemma fold_upsert_keeps_present (rs : list ManifestRecord) (r : ManifestRecord) :
  forall table,
  existsb (same_key r) table = true ->
  existsb (same_key r) (fold_left upsert rs table) = true.
Proof.
  induction rs as [|r' rs IH]; intros table H; simpl; [exact H|].
  apply IH. now apply existsb_same_key_upsert.
Qed.

Lemma fold_upsert_all_present (rs : list ManifestRecord) :
  forall table,
  Forall (fun r => existsb (same_key r) (fold_left upsert rs table) = true) rs.
Proof.
  induction rs as [|r rs IH]; intros table; simpl; constructor.
  - apply fold_upsert_keeps_present, existsb_same_key_upsert_self.
  - apply IH.
Qed.

(** A row of the table after the upserts of [rs] already holds what the
    upserts of [rs] would write into it. *)
Lemma fold_upsert_settled (rs : list ManifestRecord) :
  forall table x,
  In x (fold_left upsert rs table) -> updated_by_all rs x = x.
Proof.
  induction rs as [|r rs IH] using rev_ind; intros table x Hin; [reflexivity|].
  rewrite fold_left_app in Hin. simpl in Hin.
  rewrite updated_by_all_snoc. rewrite upsert_eq in Hin.
  apply in_app_or in Hin as [Hin|Hin].
  - apply in_map_iff in Hin as (x' & <- & Hx').
    specialize (IH _ _ Hx'). unfold updated_by at 1.
    rewrite (same_key_congr r _ x')
      by (rewrite identity_tuple_updated_by_all; apply identity_tuple_updated_by).
    unfold updated_by at 2 3. destruct (same_key r x') eqn:Hk.
    + apply do_update_congr.
      * rewrite identity_tuple_updated_by_all. apply identity_tuple_updated_by.
      * rewrite listing_title_updated_by_all. apply listing_title_updated_by.
    + exact IH.
  - destruct (existsb (same_key r) (fold_left upsert rs table)); [destruct Hin|].
    destruct Hin as [<-|[]]. unfold updated_by.
    rewrite (same_key_congr r _ r) by apply identity_tuple_updated_by_all.
    rewrite same_key_refl. rewrite <- (do_update_self r) at 3.
    apply do_update_congr.
    + apply identity_tuple_updated_by_all.
    + apply listing_title_updated_by_all.
Qed.

(** X7: committing the same rows a second time changes nothing: the table
    after a re-run of the sync on the same batch is the table after the first
    run, with no row added. *)
Theorem commit_twice (table : list ManifestRecord) (st : LoopState) :
  commit (commit table st) st = commit table st.
Proof.
  unfold commit.
  rewrite (fold_upsert_present (pending st) (fold_left upsert (pending st) table))
    by apply fold_upsert_all_present.
  rewrite <- (map_id (fold_left upsert (pending st) table)) at 2.
  apply map_ext_in. intros x Hx. eapply fold_upsert_settled, Hx.
Qed.

(** ** The parts of a title *)

(** X8: the parts of a title, joined again with the delimiter, are the
    title: the split drops nothing but the delimiters. *)
Theorem title_parts_rejoin (t : string) : join " - " (split " - " t) = t.
Proof. now apply join_split. Qed.

Lemma append_eq_nil (a b : string) : a +:+ b = "" -> b = "".
Proof. now destruct a. Qed.

Lemma prefix_append_r (p b s : string) :
  String.prefix p b = true -> String.prefix p (b +:+ s) = true.
Proof.
  revert b. induction p as [|c p IH]; intros b Hp; [now destruct (b +:+ s)|].
  destruct b as [|d b]; [discriminate|]. rewrite append_cons. simpl in *.
  destruct (ascii_dec c d); [now apply IH | discriminate].
Qed.

Lemma contains_split (sub s : string) :
  contains sub s = true -> exists a b, s = a +:+ b /\ String.prefix sub b = true.
Proof.
  induction s as [|c s IH].
  - cbn [contains]. rewrite orb_false_r. intros H. now exists "", "".
  - cbn [contains]. intros [H|H]%orb_prop.
    + now exists "", (String c s).
    + destruct (IH H) as (a & b & -> & Hb). now exists (String c a), b.
Qed.

Lemma snoc_split (c : ascii) (a : string) :
  forall cur b,
  cur +:+ String c "" = a +:+ b -> b <> "" ->
  exists b0, b = b0 +:+ String c "" /\ cur = a +:+ b0.
Proof.
  induction a as [|d a IH]; intros cur b H Hb.
  - exists cur. now split.
  - destruct cur as [|e cur].
    + rewrite append_cons in H. injection H as _ H. symmetry in H.
      now apply append_eq_nil in H.
    + rewrite !append_cons in H. injection H as -> H.
      destruct (IH _ _ H Hb) as (b0 & -> & ->). now exists b0.
Qed.

Lemma no_start_in_nil (sep s : string) : no_start_in sep "" s.
Proof. intros a b H Hb. symmetry in H. now apply append_eq_nil in H. Qed.

Lemma no_start_in_snoc (sep cur : string) (c : ascii) (s : string) :
  no_start_in sep cur (String c s) ->
  String.prefix sep (String c s) = false ->
  no_start_in sep (cur +:+ String c "") s.
Proof.
  intros Hinv Hp a b Hsplit Hb.
  destruct (snoc_split _ _ _ _ Hsplit Hb) as (b0 & -> & ->).
  rewrite append_assoc. change (String c "" +:+ s) with (String c s).
  destruct b0 as [|d b0]; [exact Hp|].
  now apply (Hinv a (String d b0)).
Qed.

Lemma no_start_in_contains (sep cur s : string) :
  sep <> "" -> no_start_in sep cur s -> contains sep cur = false.
Proof.
  intros Hsep Hinv. destruct (contains sep cur) eqn:E; [|reflexivity].
  apply contains_split in E as (a & b & -> & Hb).
  assert (Hne : b <> "")
    by (intros ->; destruct sep; [contradiction | discriminate]).
  pose proof (Hinv a b eq_refl Hne) as Hf.
  pose proof (prefix_append_r _ _ s Hb) as Ht. congruence.
Qed.

Lemma split_go_parts (sep : string) (s : string) :
  sep <> "" ->
  forall skip cur,
  (skip = 0%nat -> no_start_in sep cur s) ->
  (skip <> 0%nat -> cur = "") ->
  Forall (fun part => contains sep part = false) (split_go sep skip cur s).
Proof.
  intros Hsep. induction s as [|c s IH]; intros skip cur Hinv Hcur.
  - cbn [split_go]. constructor; [|constructor].
    destruct skip as [|k].
    + eapply no_start_in_contains; [exact Hsep | now apply Hinv].
    + rewrite Hcur by discriminate.
      eapply no_start_in_contains; [exact Hsep | apply (no_start_in_nil sep "")].
  - cbn [split_go]. destruct skip as [|k].
    + specialize (Hinv eq_refl).
      destruct (String.prefix sep (String c s)) eqn:Hp.
      * constructor.
        -- eapply no_start_in_contains; eassumption.
        -- apply IH; [intros _; apply no_start_in_nil | reflexivity].
      * apply IH; [intros _; now apply no_start_in_snoc | contradiction].
    + rewrite Hcur by discriminate.
      apply IH; [intros _; apply no_start_in_nil | reflexivity].
Qed.

(** X9: no part of a split title contains the delimiter, so neither does the
    brand string of a title. *)
Theorem brands_without_delimiter (t : string) :
  Forall (fun part => contains " - " part = false) (split " - " t)
  /\ contains " - " (brands_of_title t) = false.
Proof.
  assert (Hparts : Forall (fun part => contains " - " part = false)
                     (split " - " t)).
  { apply split_go_parts; [discriminate | | contradiction].
    intros _. apply no_start_in_nil. }
  split; [exact Hparts|].
  unfold brands_of_title. cbv zeta.
  destruct (3 <=? length (split " - " t))%nat; [|reflexivity].
  destruct (split " - " t) as [|a [|b l]]; try reflexivity.
  inversion Hparts as [|? ? _ Hl]; subst. now inversion Hl.
Qed.

(** ** Exceptions of the parser *)

Lemma is_infinity_inv (f : float) :
  PrimFloat.is_infinity f = true -> exists s, Prim2SF f = S754_infinity s.
Proof.
  unfold is_infinity. rewrite FloatAxioms.eqb_spec, FloatAxioms.abs_spec.
  change (Prim2SF infinity) with (S754_infinity false).
  destruct (Prim2SF f) as [s|s| |s m e]; try discriminate; eauto.
Qed.

Section ParserOutcomes.

Context {FT : FloatText}.

(** X10: normalising a row returns or raises [OverflowError]; no
    [ValueError], [TypeError] or [ZeroDivisionError] leaves it. The same holds
    for a whole workbook once the cost ratio of the order is computed. *)
Theorem normalisation_raises_overflow_only :
  (forall oid meta ratio col_map row,
     (exists o, parse_row oid meta ratio col_map row = Ok o)
     \/ parse_row oid meta ratio col_map row = Raise OverflowError)
  /\ (forall sheets oid meta ratio,
        cogs_ratio meta = Ok ratio ->
        (exists rows, parse_manifest_xlsx (Some sheets) oid meta = Ok rows)
        \/ parse_manifest_xlsx (Some sheets) oid meta = Raise OverflowError).
Proof.
  split.
  - intros oid meta ratio col_map row.
    pose proof (parse_row_overflow_only oid meta ratio col_map row) as H.
    destruct (parse_row oid meta ratio col_map row) as [o|e]; [eauto|].
    right. now rewrite (H e eq_refl).
  - intros sheets oid meta ratio Hr. unfold parse_manifest_xlsx. rewrite Hr.
    simpl. pose proof (parse_sheets_overflow_only oid meta ratio sheets []) as H.
    destruct (parse_sheets oid meta ratio sheets []) as [rows|e]; [eauto|].
    right. now rewrite (H e eq_refl).
Qed.

Lemma parse_rows_raise oid meta ratio col_map (before : list Row) :
  forall row after rows e,
  Forall (fun r => exists o, parse_row oid meta ratio col_map r = Ok o) before ->
  parse_row oid meta ratio col_map row = Raise e ->
  parse_rows oid meta ratio col_map (before ++ row :: after)%list rows = Raise e.
Proof.
  induction before as [|b before IH]; intros row after rows e Hb Hrow; simpl.
  - now rewrite Hrow.
  - inversion Hb as [|? ? [o Ho] Hb']; subst. rewrite Ho. simpl. now apply IH.
Qed.

(** X11: a retained row whose quantity cell holds an infinite value raises
    [OverflowError], which no [except] clause catches, and the rows parsed
    before it in the sheet are lost with it. *)
Theorem infinite_quantity_aborts oid meta ratio col_map
    (before after : list Row) (row : Row) (rows : list ManifestRecord) (f : float) :
  Forall (fun r => exists o, parse_row oid meta ratio col_map r = Ok o) before ->
  is_nil row || all_blank row = false ->
  (let name := strip (py_str (get_val col_map row "product_name" (CStr ""))) in
   String.eqb name "" || String.eqb (lower name) "product name" = false) ->
  py_float (get_val col_map row "quantity" (CInt 1)) = Ok f ->
  PrimFloat.is_infinity f = true ->
  parse_row oid meta ratio col_map row = Raise OverflowError
  /\ parse_rows oid meta ratio col_map (before ++ row :: after)%list rows
     = Raise OverflowError.
Proof.
  cbv zeta. intros Hb Hblank Hname Hq [s Hs]%is_infinity_inv.
  assert (Hrow : parse_row oid meta ratio col_map row = Raise OverflowError).
  { unfold parse_row. rewrite Hblank. cbv zeta. rewrite Hname.
    unfold parse_quantity. rewrite Hq. simpl. unfold int_of_float. now rewrite Hs. }
  split; [exact Hrow | now apply parse_rows_raise].
Qed.

End ParserOutcomes.

Lemma normalisation_raises_overflow_only_witness :
  (exists rows, parse_manifest_xlsx (Some [sample_sheet]) "123" sample_meta = Ok rows)
  \/ parse_manifest_xlsx (Some [sample_sheet]) "123" sample_meta
     = Raise OverflowError.
Proof.
  apply (proj2 normalisation_raises_overflow_only [sample_sheet] "123"
           sample_meta (PFloat 0.25)).
  reflexivity.
Defined.

Lemma infinite_quantity_aborts_witness :
  parse_row "123" sample_meta (PFloat 0.25) sample_col_map inf_quantity_row
  = Raise OverflowError
  /\ parse_rows "123" sample_meta (PFloat 0.25) sample_col_map
       ([vacuum_row] ++ inf_quantity_row :: [mop_row])%list []
     = Raise OverflowError.
Proof.
  apply (infinite_quantity_aborts "123" sample_meta (PFloat 0.25) sample_col_map
           [vacuum_row] [mop_row] inf_quantity_row [] infinity).
  - constructor; [|constructor]. exists (Some vacuum_record). apply vacuum_parse.
  - reflexivity.
  - reflexivity.
  - vm_compute. reflexivity.
  - reflexivity.
Defined.

(** ** Fields of the records *)

Section RecordFields.

Context {FT : FloatText}.

Lemma parse_row_text_fields oid meta ratio col_map row r :
  parse_row oid meta ratio col_map row = Ok (Some r) ->
  listing_title r = strip (py_str (get_val col_map row "listing_title" (CStr "")))
  /\ category r = strip (py_str (get_val col_map row "category" (CStr "")))
  /\ asin r = if truthy (get_val col_map row "asin" CNone)
              then strip (py_str (get_val col_map row "asin" (CStr ""))) else "".
Proof.
  unfold parse_row.
  destruct (is_nil row || all_blank row); [discriminate|]. cbv zeta.
  destruct (String.eqb _ "" || String.eqb (lower _) "product name");
    [discriminate|].
  intros (q & _ & H)%bind_Ok.
  apply bind_Ok in H as (u & _ & H).
  apply bind_Ok in H as (t & _ & H).
  apply bind_Ok in H as (a & _ & H).
  now injection H as <-.
Qed.

(** X12: every record of a parsed workbook carries the order id the file was
    parsed under and the date of the order, and its brand string is what the
    order's pallet map holds for its [listing_id], the empty string when the
    map has no such key. *)
Theorem records_carry_order_context (sheets : Workbook) oid meta rows :
  parse_manifest_xlsx (Some sheets) oid meta = Ok rows ->
  Forall (fun r => order_id r = oid
                   /\ order_date r = date meta
                   /\ line_item_brands r
                      = default "" (pallet_brands meta !! listing_id r)) rows.
Proof.
  intros (ratio & _ & Hrows)%parse_manifest_emitted.
  eapply Forall_impl; [exact Hrows|].
  intros r (col_map & row & Hrow%parse_row_emits).
  repeat split; [apply (em_order_id _ _ _ _ _ _ Hrow)
                | apply (em_order_date _ _ _ _ _ _ Hrow)
                | apply (em_brands _ _ _ _ _ _ Hrow)].
Qed.

(** X13: [listing_id], [listing_title], [category], [product_name] and
    [asin] of every record of a parsed workbook have no leading and no
    trailing white space. *)
Theorem text_fields_trimmed (sheets : Workbook) oid meta rows :
  parse_manifest_xlsx (Some sheets) oid meta = Ok rows ->
  Forall (fun r => strip (listing_id r) = listing_id r
                   /\ strip (listing_title r) = listing_title r
                   /\ strip (category r) = category r
                   /\ strip (product_name r) = product_name r
                   /\ strip (asin r) = asin r) rows.
Proof.
  intros (ratio & _ & Hrows)%parse_manifest_emitted.
  eapply Forall_impl; [exact Hrows|].
  intros r (col_map & row & Hrow).
  destruct (parse_row_text_fields _ _ _ _ _ _ Hrow) as (Ht & Hc & Ha).
  apply parse_row_emits in Hrow.
  rewrite (em_listing_id _ _ _ _ _ _ Hrow), (em_product_name _ _ _ _ _ _ Hrow),
    Ht, Hc, Ha.
  repeat split; try apply strip_idem.
  destruct (truthy _); [apply strip_idem | reflexivity].
Qed.

(** X14: in a retained row, a field whose column is not mapped, lies beyond
    the end of the row or holds no value gets its default: the empty string
    for [listing_id], [listing_title], [category], [upc] and [asin], and 0.0
    for [unit_retail]. *)
Theorem missing_cells_default oid meta ratio col_map row r :
  parse_row oid meta ratio col_map row = Ok (Some r) ->
  (absent col_map row "listing_id" = true -> listing_id r = "")
  /\ (absent col_map row "listing_title" = true -> listing_title r = "")
  /\ (absent col_map row "category" = true -> category r = "")
  /\ (absent col_map row "upc" = true -> upc r = "")
  /\ (absent col_map row "asin" = true -> asin r = "")
  /\ (absent col_map row "unit_retail" = true -> unit_retail r = 0%float).
Proof.
  intros Hrow.
  destruct (parse_row_text_fields _ _ _ _ _ _ Hrow) as (Ht & Hc & Ha).
  apply parse_row_emits in Hrow.
  repeat split; intros Habs.
  - rewrite (em_listing_id _ _ _ _ _ _ Hrow), get_val_absent by exact Habs.
    reflexivity.
  - rewrite Ht, get_val_absent by exact Habs. reflexivity.
  - rewrite Hc, get_val_absent by exact Habs. reflexivity.
  - rewrite (em_upc _ _ _ _ _ _ Hrow), get_val_absent by exact Habs.
    reflexivity.
  - rewrite Ha, get_val_absent by exact Habs. reflexivity.
  - pose proof (em_unit_retail _ _ _ _ _ _ Hrow) as Hu.
    rewrite get_val_absent in Hu by exact Habs. now injection Hu.
Qed.

(** *** The loop over the files *)

(** X15: [all_rows] is what the files return, one after the other in the
    order of the files, each file parsed under the order id of its name and
    the meta of that order, or the default meta when the order is unknown. *)
Theorem all_rows_by_file (orders_map : gmap string OrderMeta)
    (files : list (string * option Workbook)) :
  forall all_rows out,
  parse_files orders_map files all_rows = Ok out ->
  exists per_file,
    out = (all_rows ++ concat per_file)%list
    /\ Forall2 (fun file rows =>
                  let oid := order_id_of_filename (fst file) in
                  parse_manifest_xlsx (snd file) oid
                    (default default_meta (orders_map !! oid)) = Ok rows)
         files per_file.
Proof.
  induction files as [|[filename wb] files IH]; intros all_rows out H; simpl in H.
  - injection H as <-. exists []. split; [now rewrite app_nil_r | constructor].
  - apply bind_Ok in H as (rows & Hrows & H).
    apply IH in H as (per_file & -> & Hper).
    exists (rows :: per_file). split.
    + simpl. now rewrite app_assoc.
    + constructor; [exact Hrows | exact Hper].
Qed.

(** X16: a file that cannot be read adds nothing: the result is the one of
    the run without that file. *)
Theorem unreadable_file_skipped (orders_map : gmap string OrderMeta)
    (before after : list (string * option Workbook)) (filename : string) :
  forall all_rows,
  parse_files orders_map (before ++ (filename, None) :: after)%list all_rows
  = parse_files orders_map (before ++ after)%list all_rows.
Proof.
  induction before as [|[fn wb] before IH]; intros all_rows; simpl.
  - now rewrite app_nil_r.
  - destruct (parse_manifest_xlsx wb _ _) as [rows|e]; simpl; [apply IH | reflexivity].
Qed.

(** X17: a file whose order is not in [orders_map] is parsed under the
    default meta: its records have an empty [order_date], no brands, and the
    allocation [unit_retail * 0]. *)
Theorem unknown_order_defaults (orders_map : gmap string OrderMeta)
    (filename : string) (wb : option Workbook) (rows : list ManifestRecord) :
  orders_map !! order_id_of_filename filename = None ->
  parse_files orders_map [(filename, wb)] [] = Ok rows ->
  Forall (fun r => order_id r = order_id_of_filename filename
                   /\ order_date r = ""
                   /\ line_item_brands r = ""
                   /\ allocated_cogs_per_unit r = (unit_retail r * 0)%float) rows.
Proof.
  intros Hnone H. simpl in H. rewrite Hnone in H. simpl in H.
  apply bind_Ok in H as (rows' & Hrows & [= <-]). simpl.
  destruct wb as [sheets|]; [|injection Hrows as <-; constructor].
  apply parse_manifest_emitted in Hrows as (ratio & Hr & Hrows).
  injection Hr as <-.
  eapply Forall_impl; [exact Hrows|].
  intros r (col_map & row & Hrow%parse_row_emits).
  pose proof (em_allocated _ _ _ _ _ _ Hrow) as Ha.
  rewrite fmul_int_zero in Ha. injection Ha as Ha.
  repeat split;
    [apply (em_order_id _ _ _ _ _ _ Hrow)
    | apply (em_order_date _ _ _ _ _ _ Hrow)
    | rewrite (em_brands _ _ _ _ _ _ Hrow); reflexivity
    | now symmetry].
Qed.

End RecordFields.

(** ** The column map *)

(** X18: the retail columns are told apart by the order of the tests: only
    the exact text [orig. retail] maps to [unit_retail], and a header that
    contains [total orig] maps to [total_retail] exactly when it contains
    none of [listing id], [listing title], [category] and [product name]. *)
Theorem retail_columns_told_apart (h : string) :
  (classify_header h = Some "unit_retail" <-> h = "orig. retail")
  /\ (classify_header h = Some "total_retail" <->
      contains "total orig" h = true
      /\ contains "listing id" h = false
      /\ contains "listing title" h = false
      /\ contains "category" h = false
      /\ contains "product name" h = false).
Proof.
  split.
  - split; [|intros ->; reflexivity].
    unfold classify_header.
    destruct (contains "listing id" h); [discriminate|].
    destruct (contains "listing title" h); [discriminate|].
    destruct (contains "category" h); [discriminate|].
    destruct (contains "product name" h); [discriminate|].
    destruct (String.eqb h "upc"); [discriminate|].
    destruct (String.eqb h "asin"); [discriminate|].
    destruct (String.eqb h "quantity"); [discriminate|].
    rewrite (String.eqb_sym "orig. retail" h), orb_diag.
    destruct (String.eqb_spec h "orig. retail") as [->|]; [reflexivity|].
    now destruct (contains "total orig" h).
  - unfold classify_header. split.
    + destruct (contains "listing id" h); [discriminate|].
      destruct (contains "listing title" h); [discriminate|].
      destruct (contains "category" h); [discriminate|].
      destruct (contains "product name" h); [discriminate|].
      destruct (String.eqb h "upc"); [discriminate|].
      destruct (String.eqb h "asin"); [discriminate|].
      destruct (String.eqb h "quantity"); [discriminate|].
      destruct (_ || _); [discriminate|].
      now destruct (contains "total orig" h).
    + intros (Ht & -> & -> & -> & ->).
      destruct (String.eqb_spec h "upc") as [->|]; [discriminate|].
      destruct (String.eqb_spec h "asin") as [->|]; [discriminate|].
      destruct (String.eqb_spec h "quantity") as [->|]; [discriminate|].
      rewrite (String.eqb_sym "orig. retail" h), orb_diag.
      destruct (String.eqb_spec h "orig. retail") as [->|]; [discriminate|].
      now rewrite Ht.
Qed.

Lemma build_col_map_from_lookup (key : string) (header_row : list string) :
  forall (j0 : nat) (m : gmap string nat) (j : nat),
  build_col_map_from j0 header_row m !! key = Some j <->
  (exists i h, j = (j0 + i)%nat /\ header_row !! i = Some h
               /\ classify_header h = Some key
               /\ forall i' h', (i < i')%nat -> header_row !! i' = Some h' ->
                                classify_header h' <> Some key)
  \/ (m !! key = Some j
      /\ forall i h, header_row !! i = Some h -> classify_header h <> Some key).
Proof.
  induction header_row as [|h0 rest IH]; intros j0 m j; simpl.
  - split; [intros H; right; split; [exact H | intros i h Hi; inversion Hi]|].
    intros [(i & h & _ & Hi & _) | [H _]]; [inversion Hi | exact H].
  - rewrite IH. clear IH. split.
    + intros [(i & h & -> & Hi & Hc & Hlast) | [Hm Hnone]].
      * left. exists (S i), h. repeat split; [lia | exact Hi | exact Hc|].
        intros [|i'] h' Hlt Hi'; [lia|]. apply (Hlast i' h'); [lia | exact Hi'].
      * destruct (decide (classify_header h0 = Some key)) as [Hc0|Hc0].
        -- left. exists 0%nat, h0. rewrite Hc0 in Hm.
           rewrite lookup_insert_eq in Hm. injection Hm as <-.
           repeat split; [lia | exact Hc0|].
           intros [|i'] h' Hlt Hi'; [lia|]. now apply (Hnone i' h').
        -- right. split.
           ++ destruct (classify_header h0) as [k|]; [|exact Hm].
              rewrite lookup_insert_ne in Hm; [exact Hm | congruence].
           ++ intros [|i] h Hi; [injection Hi as <-; exact Hc0|].
              now apply (Hnone i h).
    + intros [(i & h & -> & Hi & Hc & Hlast) | [Hm Hnone]].
      * destruct i as [|i].
        -- right. injection Hi as <-. rewrite Hc. split.
           ++ rewrite lookup_insert_eq. f_equal. lia.
           ++ intros i h Hi. apply (Hlast (S i) h); [lia | exact Hi].
        -- left. exists i, h. repeat split; [lia | exact Hi | exact Hc|].
           intros i' h' Hlt Hi'. apply (Hlast (S i') h'); [lia | exact Hi'].
      * right. split.
        -- pose proof (Hnone 0%nat h0 eq_refl) as Hc0.
           destruct (classify_header h0) as [k|]; [|exact Hm].
           rewrite lookup_insert_ne; [exact Hm | congruence].
        -- intros i h Hi. now apply (Hnone (S i) h).
Qed.

(** X19: the column map sends a field to the last column whose header text
    is classified as that field: when two headers classify alike the later
    one wins, and a field that no header classifies as is not mapped. *)
Theorem col_map_last_wins (header_row : list string) (key : string) (j : nat) :
  build_col_map header_row !! key = Some j <->
  (exists h, header_row !! j = Some h /\ classify_header h = Some key)
  /\ (forall j' h', (j < j')%nat -> header_row !! j' = Some h' ->
                    classify_header h' <> Some key).
Proof.
  unfold build_col_map. rewrite build_col_map_from_lookup. split.
  - intros [(i & h & -> & Hi & Hc & Hlast) | [Hm _]]; [|now rewrite lookup_empty in Hm].
    split; [now exists h | exact Hlast].
  - intros [(h & Hj & Hc) Hlast]. left. now exists j, h.
Qed.

(** ** The order metadata loader *)

Lemma load_orders_from_lookup (orders : list Order) :
  forall (m0 m : gmap string OrderMeta) (oid : string) (meta : OrderMeta),
  load_orders_from orders m0 = Ok m ->
  m !! oid = Some meta <->
  (exists before o after,
      orders = (before ++ o :: after)%list
      /\ ord_id o = oid /\ oid <> ""
      /\ order_meta_of o = Ok meta
      /\ Forall (fun o' => ord_id o' <> oid) after)
  \/ (m0 !! oid = Some meta
      /\ (oid = "" \/ Forall (fun o' => ord_id o' <> oid) orders)).
Proof.
  induction orders as [|o0 rest IH]; intros m0 m oid meta H; simpl in H.
  - injection H as <-. split.
    + intros Hm. right. split; [exact Hm | right; constructor].
    + intros [(before & o & after & Habs & _) | [Hm _]]; [|exact Hm].
      now destruct before.
  - destruct (String.eqb_spec (ord_id o0) "") as [Hid|Hid].
    + rewrite (IH _ _ oid meta H). split.
      * intros [(before & o & after & -> & Ho) | [Hm Hrest]].
        -- left. now exists (o0 :: before), o, after.
        -- right. split; [exact Hm|].
           destruct (decide (oid = "")) as [->|Hne]; [now left|].
           right. constructor; [congruence|]. now destruct Hrest.
      * intros [(before & o & after & Heq & Ho & Hne & Hrest) | [Hm Hall]].
        -- destruct before as [|o1 before]; simpl in Heq;
             injection Heq as -> ->; [congruence|].
           left. now exists before, o, after.
        -- right. split; [exact Hm|].
           destruct Hall as [->|Hall]; [now left|].
           right. now inversion Hall.
    + destruct (order_meta_of o0) as [m1|e] eqn:Hm1; [|discriminate]. simpl in H.
      rewrite (IH _ _ oid meta H). split.
      * intros [(before & o & after & -> & Ho) | [Hm Hrest]].
        -- left. now exists (o0 :: before), o, after.
        -- destruct (decide (ord_id o0 = oid)) as [Heq|Hne].
           ++ left. exists [], o0, rest. subst oid.
              rewrite lookup_insert_eq in Hm. injection Hm as <-.
              repeat split; [exact Hid | exact Hm1|].
              now destruct Hrest.
           ++ right. rewrite lookup_insert_ne in Hm by exact Hne.
              split; [exact Hm|].
              destruct Hrest as [->|Hrest]; [now left|].
              right. now constructor.
      * intros [(before & o & after & Heq & Ho & Hne & Hmeta & Hrest)
               | [Hm Hall]].
        -- destruct before as [|o1 before]; simpl in Heq; injection Heq as -> ->.
           ++ right. subst oid. rewrite Hm1 in Hmeta. injection Hmeta as ->.
              split; [apply lookup_insert_eq | now right].
           ++ left. now exists before, o, after.
        -- right. split.
           ++ rewrite lookup_insert_ne; [exact Hm|].
              destruct Hall as [->|Hall]; [exact Hid | now inversion Hall].
           ++ destruct Hall as [->|Hall]; [now left | right; now inversion Hall].
Qed.

(** X20: when the loader returns, the empty order id is never a key of its
    map, and an order id is a key exactly when some entry carries it; the
    meta stored under it is the one of the last such entry. *)
Theorem load_orders_lookup (data : option (list Order))
    (m : gmap string OrderMeta) :
  load_orders data = Ok m ->
  m !! "" = None
  /\ forall oid meta,
       m !! oid = Some meta <->
       exists before o after,
         default [] data = (before ++ o :: after)%list
         /\ ord_id o = oid /\ oid <> ""
         /\ order_meta_of o = Ok meta
         /\ Forall (fun o' => ord_id o' <> oid) after.
Proof.
  intros H.
  assert (Hfrom : load_orders_from (default [] data) ∅ = Ok m)
    by (destruct data; exact H).
  assert (Hiff : forall oid meta,
             m !! oid = Some meta <->
             exists before o after,
               default [] data = (before ++ o :: after)%list
               /\ ord_id o = oid /\ oid <> ""
               /\ order_meta_of o = Ok meta
               /\ Forall (fun o' => ord_id o' <> oid) after).
  { intros oid meta. rewrite (load_orders_from_lookup _ _ _ oid meta Hfrom).
    split; [|now left].
    intros [Hl | [Hm _]]; [exact Hl | now rewrite lookup_empty in Hm]. }
  split; [|exact Hiff].
  destruct (m !! "") as [meta|] eqn:Hm; [|reflexivity].
  apply Hiff in Hm as (before & o & after & _ & _ & Hne & _). congruence.
Qed.

Lemma sum_ints (zs : list Z) :
  forall a, fold_left (fun acc n => a <- acc ;; add a n) (map PInt zs) (Ok (PInt a))
            = Ok (PInt (fold_left Z.add zs a)).
Proof. induction zs as [|z zs IH]; intros a; simpl; [reflexivity | apply IH]. Qed.

(** X21: for an order whose items have integer prices, retail values and
    item counts, building the meta does not fail, and [total_cost] and
    [total_msrp] are the exact integer sums. *)
Theorem integer_totals_exact (o : Order) (prices retails counts : list Z) :
  map price (ord_items o) = map PInt prices ->
  map msrp (ord_items o) = map PInt retails ->
  map item_count (ord_items o) = map PInt counts ->
  order_meta_of o
  = Ok {| date := ord_date o;
          total_cost := PInt (fold_left Z.add prices 0%Z);
          total_msrp := PInt (fold_left Z.add retails 0%Z);
          pallet_brands := pallet_brands_of (ord_items o) |}.
Proof.
  intros Hp Hm Hc. unfold order_meta_of, sum.
  rewrite Hp, Hm, Hc, !sum_ints. reflexivity.
Qed.

(** ** Examples for the further properties *)

(** X12 (witness): the two records of the sample sheet, parsed under order
    [123]. *)
Lemma records_carry_order_context_witness :
  Forall (fun r => order_id r = "123"
                   /\ order_date r = date sample_meta
                   /\ line_item_brands r
                      = default "" (pallet_brands sample_meta !! listing_id r))
    [vacuum_record; mop_record].
Proof.
  apply (records_carry_order_context [sample_sheet] "123" sample_meta).
  apply sample_parse.
Defined.

(** X13 (witness): the product name [" Vacuum "] of the sample sheet is
    stored trimmed. *)
Lemma text_fields_trimmed_witness :
  Forall (fun r => strip (listing_id r) = listing_id r
                   /\ strip (listing_title r) = listing_title r
                   /\ strip (category r) = category r
                   /\ strip (product_name r) = product_name r
                   /\ strip (asin r) = asin r)
    [vacuum_record; mop_record].
Proof.
  apply (text_fields_trimmed [sample_sheet] "123" sample_meta).
  apply sample_parse.
Defined.

(** X14 (witness): the sample header has no [listing title], [category] and
    [asin] column; the three fields of the vacuum record are empty. *)
Lemma missing_cells_default_witness :
  listing_title vacuum_record = ""
  /\ category vacuum_record = ""
  /\ asin vacuum_record = "".
Proof.
  destruct (missing_cells_default "123" sample_meta (PFloat 0.25)
              sample_col_map vacuum_row vacuum_record vacuum_parse)
    as (_ & Ht & Hc & _ & Ha & _).
  split; [apply Ht; reflexivity|].
  split; [apply Hc | apply Ha]; reflexivity.
Defined.

(** X15 (witness): the run over the two sample files returns the two records
    of the first file. *)
Lemma all_rows_by_file_witness :
  exists per_file,
    [vacuum_record; mop_record] = ([] ++ concat per_file)%list
    /\ Forall2 (fun file rows =>
                  let oid := order_id_of_filename (fst file) in
                  parse_manifest_xlsx (snd file) oid
                    (default default_meta (sample_orders_map !! oid)) = Ok rows)
         sample_files per_file.
Proof.
  apply (all_rows_by_file sample_orders_map sample_files []).
  vm_compute. reflexivity.
Defined.

(** X17 (witness): the sample sheet parsed when no order is known. *)
Lemma unknown_order_defaults_witness :
  exists rows,
    parse_files ∅ [("order_manifest_123.xlsx", Some [sample_sheet])] [] = Ok rows
    /\ length rows = 2%nat
    /\ Forall (fun r => order_id r = order_id_of_filename "order_manifest_123.xlsx"
                        /\ order_date r = ""
                        /\ line_item_brands r = ""
                        /\ allocated_cogs_per_unit r = (unit_retail r * 0)%float)
         rows.
Proof.
  eexists. split; [vm_compute; reflexivity|]. split; [reflexivity|].
  apply (unknown_order_defaults ∅ "order_manifest_123.xlsx" (Some [sample_sheet])).
  - reflexivity.
  - vm_compute. reflexivity.
Defined.

(** X20 (witness): of the three sample entries the one without an order id
    is left out, and order [124] is stored with its meta. *)
Lemma load_orders_lookup_witness :
  exists m,
    load_orders (Some sample_orders) = Ok m
    /\ m !! "" = None
    /\ m !! "124" = Some untitled_meta.
Proof.
  eexists. split; [vm_compute; reflexivity|].
  destruct (load_orders_lookup (Some sample_orders) _ eq_refl) as [Hempty Hiff].
  split; [exact Hempty|].
  apply Hiff. exists (firstn 2 sample_orders), untitled_order, [].
  repeat split; [discriminate | constructor].
Defined.

(** X21 (witness): the order of the untitled item, whose amounts are
    integers. *)
Lemma integer_totals_exact_witness :
  order_meta_of untitled_order = Ok untitled_meta.
Proof.
  exact (integer_totals_exact untitled_order [200%Z] [800%Z] [10%Z]
           eq_refl eq_refl eq_refl).
Defined.
